(** * Corrective RAG: retrieval-quality gating and context fusion

    A shallow embedding of the query path of the repository:
    [queryAnalyzer.js] (class QueryAnalyzer), [retrieval.js] (class Retriever)
    and [webSearch.js] (class WebSearcher), and the properties the
    specification states about them.

    Conventions of the model.
    - A JavaScript string is a sequence of 16-bit code units.  The model keeps
      the code units below 256, one [ascii] per unit, so [length] is the
      JavaScript [.length].
    - Dynamically typed values (the verdict produced by [JSON.parse], the
      search query handed to the web searcher) are values of [jsval].
    - [await]ed calls run one after the other; an [async] method is an action
      of the monad [M], which threads the history of the calls made to the
      external collaborators and carries a thrown [Error].
    - [console.log] output is not part of the model; a template literal that
      can throw inside a logging statement is. *)

From Stdlib Require Import Bool Arith Lia List String Ascii ZArith QArith
  Sorted DecimalString.
Import ListNotations.

Local Set Warnings "-register-all".

Local Open Scope string_scope.
Local Open Scope list_scope.
Local Open Scope nat_scope.

(** The string concatenation of template literals and [+=]. *)
Infix "+++" := String.append (right associativity, at level 60).

(* ================================================================== *)
(** ** JavaScript strings *)

Module JsString.

Definition quote : string := String "034"%char EmptyString.
Definition backtick3 : string := "```".
Definition nl : string := String "010"%char EmptyString.

(** [String.prototype.toLowerCase] on one code unit below 256: the Latin
    capital letters A-Z and the capitals of the Latin-1 supplement
    (U+00C0-U+00DE except the multiplication sign U+00D7) move 32 up. *)
Definition lower_unit (c : ascii) : ascii :=
  let n := nat_of_ascii c in
  if ((65 <=? n) && (n <=? 90))
     || ((192 <=? n) && (n <=? 222) && negb (n =? 215))
  then ascii_of_nat (n + 32)
  else c.

Fixpoint toLowerCase (s : string) : string :=
  match s with
  | EmptyString => EmptyString
  | String c s' => String (lower_unit c) (toLowerCase s')
  end.

(** [s.startsWith(p)] *)
Fixpoint startsWith (s p : string) : bool :=
  match p, s with
  | EmptyString, _ => true
  | String _ _, EmptyString => false
  | String a p', String b s' => Ascii.eqb a b && startsWith s' p'
  end.

(** [s.includes(sub)]: [sub] occurs at some position of [s]. *)
Fixpoint includes (s sub : string) : bool :=
  startsWith s sub
  || match s with
     | EmptyString => false
     | String _ s' => includes s' sub
     end.

(** [s.substring(0, n)] *)
Fixpoint substring0 (n : nat) (s : string) : string :=
  match n, s with
  | S n', String c s' => String c (substring0 n' s')
  | _, _ => EmptyString
  end.

(** Drop the first [n] code units: [s.slice(n)]. *)
Fixpoint slice (n : nat) (s : string) : string :=
  match n, s with
  | S n', String _ s' => slice n' s'
  | _, _ => s
  end.

(** White space and line terminators ([\s] of a regular expression, and
    what [trim] removes) among the code units below 256: TAB, LF, VT, FF,
    CR, SPACE and NO-BREAK SPACE. *)
Definition is_space (c : ascii) : bool :=
  let n := nat_of_ascii c in
  ((9 <=? n) && (n <=? 13)) || (n =? 32) || (n =? 160).

Fixpoint trimStart (s : string) : string :=
  match s with
  | String c s' => if is_space c then trimStart s' else s
  | EmptyString => EmptyString
  end.

Fixpoint trimEnd (s : string) : string :=
  match s with
  | EmptyString => EmptyString
  | String c s' =>
      match trimEnd s' with
      | EmptyString => if is_space c then EmptyString
                       else String c EmptyString
      | t => String c t
      end
  end.

Definition trim (s : string) : string := trimEnd (trimStart s).

(** [parts.join(sep)] on an array of strings. *)
Fixpoint join (sep : string) (parts : list string) : string :=
  match parts with
  | [] => EmptyString
  | [p] => p
  | p :: rest => p +++ sep +++ join sep rest
  end.

(** The decimal rendering of a natural number in a template literal. *)
Definition of_nat (n : nat) : string :=
  NilZero.string_of_uint (Nat.to_uint n).

(** [xs.map((x, idx) => f(x, idx))], counting from [idx]. *)
Fixpoint mapi_from {A B : Type} (idx : nat) (f : A -> nat -> B)
  (xs : list A) : list B :=
  match xs with
  | [] => []
  | x :: rest => f x idx :: mapi_from (S idx) f rest
  end.

Definition mapi {A B : Type} (f : A -> nat -> B) (xs : list A) : list B :=
  mapi_from 0 f xs.

(** The position of the first "```" at or after the start of [s]: the text
    before it and the text after it. *)
Fixpoint split_fence (s : string) : option (string * string) :=
  if startsWith s backtick3 then Some (EmptyString, slice 3 s)
  else match s with
       | EmptyString => None
       | String c s' =>
           match split_fence s' with
           | Some (before, after) => Some (String c before, after)
           | None => None
           end
       end.

(** [content.match(/```(?:json)?\s*([\s\S]*?)\s*```/)], the captured group
    1 when the expression matches.  The leftmost match opens at the first
    fence; [(?:json)?] and the first [\s*] are greedy; the lazy group stops
    as early as [\s*```] can follow, that is before the white space that
    precedes the next fence. *)
Definition match_fenced (content : string) : option string :=
  match split_fence content with
  | None => None
  | Some (_, opened) =>
      let opened := if startsWith opened "json" then slice 4 opened
                    else opened in
      match split_fence (trimStart opened) with
      | None => None
      | Some (body, _) => Some (trimEnd body)
      end
  end.

End JsString.

(* ================================================================== *)
(** ** JavaScript values *)

Inductive jsval : Type :=
| JUndefined
| JNull
| JBool (b : bool)
| JNum (q : Q)
| JStr (s : string)
| JArr (items : list jsval)
| JObj (props : list (string * jsval)).

Module JsValue.

(** ToBoolean: what [||], [&&], [?:] and [if] test. *)
Definition truthy (v : jsval) : bool :=
  match v with
  | JUndefined | JNull => false
  | JBool b => b
  | JNum q => negb (Qnum q =? 0)%Z
  | JStr EmptyString => false
  | JStr (String _ _) => true
  | JArr _ | JObj _ => true
  end.

(** [a || b] *)
Definition or (a b : jsval) : jsval := if truthy a then a else b.

Fixpoint lookup (key : string) (props : list (string * jsval))
  : option jsval :=
  match props with
  | [] => None
  | (k, v) :: rest => if String.eqb k key then Some v else lookup key rest
  end.

(** [v.key] for a key that no prototype defines (the field names of a
    verdict): [None] is the TypeError of reading a property of [null] or
    [undefined]; a missing property reads as [undefined]. *)
Definition get (v : jsval) (key : string) : option jsval :=
  match v with
  | JUndefined | JNull => None
  | JObj props =>
      match lookup key props with
      | Some x => Some x
      | None => Some JUndefined
      end
  | _ => Some JUndefined
  end.

(** Whether the string conversion of a template literal throws on [v].  A
    value that came out of [JSON.parse] holds no function, so an object
    with an own property [toString] has no usable conversion method
    (TypeError); any other object prints as [[object Object]].  An array
    joins the conversions of its elements, [null] and [undefined]
    printing as the empty string. *)
Fixpoint interpolation_throws (v : jsval) : bool :=
  match v with
  | JObj props =>
      match lookup "toString" props with
      | Some _ => true
      | None => false
      end
  | JArr items => existsb interpolation_throws items
  | _ => false
  end.

End JsValue.

(* ================================================================== *)
(** ** Data of the collaborators *)

(** A row of the [documents] table as the vector index returns it.  The
    query path reads [text], [contentType], [pageNumber] and [_distance];
    it never assumes that one of them is there. *)
Record Chunk : Type := mkChunk {
  text : option string;
  contentType : option string;
  pageNumber : option nat;
  _distance : option Q
}.

(** A thrown JavaScript [Error]. *)
Record Error : Type := mkError {
  name : string;
  message : string
}.

Definition TypeError (msg : string) : Error := mkError "TypeError" msg.
Definition SyntaxError (msg : string) : Error := mkError "SyntaxError" msg.

(** The answer of [openai.embeddings.create]. *)
Module Embeddings.
Record Item : Type := mkItem { embedding : list Q }.
Record Response : Type := mkResponse { data : list Item }.
End Embeddings.

(** The answer of [openai.chat.completions.create]. *)
Module Chat.
Record Message : Type := mkMessage { content : option string }.
Record Choice : Type := mkChoice { message : Message }.
Record Response : Type := mkResponse { choices : list Choice }.
End Chat.

(** The answer of [search] of the googlethis library. *)
Module Google.

Module Organic.
Record t : Type := mk {
  title : option string;
  url : option string;
  description : option string
}.
End Organic.

(** [info] holds the text [JSON.stringify(kg.info, null, 2)] of a truthy
    [info] property, and [None] for a falsy one. *)
Module KnowledgePanel.
Record t : Type := mk {
  title : option string;
  type : option string;
  description : option string;
  info : option string
}.
End KnowledgePanel.

Module FeaturedSnippet.
Record t : Type := mk {
  title : option string;
  description : option string;
  url : option string
}.
End FeaturedSnippet.

Record Response : Type := mkResponse {
  results : list Organic.t;
  knowledge_panel : option KnowledgePanel.t;
  featured_snippet : option FeaturedSnippet.t
}.

End Google.

(* ================================================================== *)
(** ** Effects: calls to the collaborators and thrown errors *)

(** One call that leaves the process. *)
Inductive Event : Type :=
| LanceConnect (dbPath : string)
| OpenTable (tableName : string)
| EmbeddingsCreate (input : string)
| VectorSearch (queryEmbedding : list Q) (limit : nat)
| ChatCompletionsCreate (systemContent userContent : string)
| GoogleSearch (query : jsval).

(** The calls made so far, oldest first. *)
Definition History : Type := list Event.

(** What the code takes from outside.  A collaborator answers a call with a
    value or with a thrown error, and its answer may depend on everything
    that happened before (the network is not a function of the request).
    [JSON_parse] is the engine's [JSON.parse]: [None] is its SyntaxError. *)
Record Env : Type := mkEnv {
  JSON_parse : string -> option jsval;
  lancedb_connect : History -> string -> Error + unit;
  db_openTable : History -> string -> Error + unit;
  embeddings_create : History -> string -> Error + Embeddings.Response;
  table_search : History -> list Q -> nat -> Error + list Chunk;
  chat_completions_create : History -> string -> string -> Error + Chat.Response;
  google_search : History -> jsval -> Error + Google.Response
}.

(** An [async] computation: from the history to a result or a thrown error,
    and the extended history. *)
Definition M (A : Type) : Type := History -> (Error + A) * History.

Definition ret {A : Type} (a : A) : M A := fun h => (inr a, h).

Definition throw {A : Type} (e : Error) : M A := fun h => (inl e, h).

Definition bind {A B : Type} (m : M A) (k : A -> M B) : M B :=
  fun h =>
    match m h with
    | (inr a, h') => k a h'
    | (inl e, h') => (inl e, h')
    end.

(** [try { m } catch (error) { handler(error) }] *)
Definition try_catch {A : Type} (m : M A) (handler : Error -> M A) : M A :=
  fun h =>
    match m h with
    | (inl e, h') => handler e h'
    | (inr a, h') => (inr a, h')
    end.

(** [await] of a collaborator: the call is recorded, the answer is the
    collaborator's answer at this point of the history. *)
Definition call {A : Type} (ev : Event) (answer : History -> Error + A)
  : M A :=
  fun h => (answer h, h ++ [ev]).

(** A value that must be there: [None] throws the TypeError [msg]. *)
Definition defined {A : Type} (msg : string) (o : option A) : M A :=
  match o with
  | Some a => ret a
  | None => throw (TypeError msg)
  end.

(** A template literal inside a logging statement: nothing but the possible
    TypeError of the conversion to a string. *)
Definition log_value (v : jsval) : M unit :=
  if JsValue.interpolation_throws v
  then throw (TypeError "Cannot convert object to primitive value")
  else ret tt.

Notation "x <- m ;; k" := (bind m (fun x => k))
  (at level 61, m at next level, right associativity).
Notation "m ;;; k" := (bind m (fun _ => k))
  (at level 61, right associativity).

(* ================================================================== *)
(** ** queryAnalyzer.js: class QueryAnalyzer *)

Module QueryAnalyzer.
Import JsString.

(** [`[Chunk ${idx + 1}]: ${chunk.text.substring(0, 200)}...`] for every
    chunk; [None] when a chunk has no [text] (reading [substring] of
    [undefined] throws). *)
Fixpoint previews_from (idx : nat) (retrievedChunks : list Chunk)
  : option (list string) :=
  match retrievedChunks with
  | [] => Some []
  | chunk :: rest =>
      match text chunk with
      | None => None
      | Some t =>
          match previews_from (S idx) rest with
          | None => None
          | Some ps =>
              Some (("[Chunk " +++ of_nat (idx + 1) +++ "]: "
                     +++ substring0 200 t +++ "...") :: ps)
          end
      end
  end.

Definition systemContent : string :=
  "You are a precise query analyzer. Always respond with valid JSON only.".

Definition analysisPrompt (query context : string) : string :=
  "You are a query analyzer for a Retrieval-Augmented Generation (RAG) system.

Your task is to evaluate if the retrieved documents are sufficient to answer the user's query.

User Query: " +++ quote +++ query +++ quote +++ "

Retrieved Documents:
" +++ context +++ "

Analyze the relevance and completeness of the retrieved documents. Consider:
1. Do the documents directly address the query?
2. Is there enough information to provide a complete answer?
3. Are the documents current and relevant?
4. Does the query ask for recent/current information that might not be in the documents?

Respond in JSON format with:
{
  " +++ quote +++ "relevance_score" +++ quote +++ ": <number 0-10>,
  " +++ quote +++ "is_sufficient" +++ quote +++ ": <boolean>,
  " +++ quote +++ "requires_web_search" +++ quote +++ ": <boolean>,
  " +++ quote +++ "reasoning" +++ quote +++ ": " +++ quote
  +++ "<brief explanation>" +++ quote +++ ",
  " +++ quote +++ "suggested_search_query" +++ quote +++ ": " +++ quote
  +++ "<optimized search query if web search needed, or null>" +++ quote +++ "
}".

(** The object of the [catch] branch. *)
Definition default_analysis : jsval :=
  JObj [ ("relevance_score", JNum 5);
         ("is_sufficient", JBool true);
         ("requires_web_search", JBool false);
         ("reasoning", JStr "Analysis failed, using retrieved documents only");
         ("suggested_search_query", JNull) ].

(** [analysis.key]: a TypeError when [analysis] is [null]. *)
Definition field (analysis : jsval) (key : string) : M jsval :=
  defined ("Cannot read properties of null (reading '" +++ key +++ "')")
    (JsValue.get analysis key).

(** The logging statements that follow [JSON.parse], in their order: they
    read the fields of [analysis] and print three of them. *)
Definition display_analysis (analysis : jsval) : M unit :=
  relevance_score <- field analysis "relevance_score" ;;
  log_value relevance_score ;;;
  is_sufficient <- field analysis "is_sufficient" ;;
  requires_web_search <- field analysis "requires_web_search" ;;
  reasoning <- field analysis "reasoning" ;;
  log_value reasoning ;;;
  requires_web_search <- field analysis "requires_web_search" ;;
  if JsValue.truthy requires_web_search
  then
    suggested_search_query <- field analysis "suggested_search_query" ;;
    if JsValue.truthy suggested_search_query
    then log_value suggested_search_query
    else ret tt
  else ret tt.

(** [response.choices[0].message.content] *)
Definition first_content (response : Chat.Response) : M (option string) :=
  choice <- defined "Cannot read properties of undefined (reading 'message')"
              (hd_error (Chat.choices response)) ;;
  ret (Chat.content (Chat.message choice)).

(** The text handed to [JSON.parse]: group 1 of the fenced block when the
    completion has one, the completion itself otherwise, trimmed. *)
Definition json_text (content : string) : string :=
  trim (match match_fenced content with
        | Some group1 => group1
        | None => content
        end).

Definition evaluateRetrievalQuality (E : Env) (query : string)
  (retrievedChunks : list Chunk) : M jsval :=
  try_catch
    (previews <- defined "Cannot read properties of undefined (reading 'substring')"
                   (previews_from 0 retrievedChunks) ;;
     let context := join (nl +++ nl) previews in
     response <- call (ChatCompletionsCreate systemContent
                         (analysisPrompt query context))
                      (fun h => chat_completions_create E h systemContent
                                  (analysisPrompt query context)) ;;
     content <- first_content response ;;
     content <- defined "Cannot read properties of null (reading 'match')"
                  content ;;
     analysis <- match JSON_parse E (json_text content) with
                 | Some v => ret v
                 | None => throw (SyntaxError "Unexpected token in JSON")
                 end ;;
     display_analysis analysis ;;;
     ret analysis)
    (fun error => ret default_analysis).

Definition webIndicators : list string :=
  [ "latest"; "recent"; "current"; "today"; "now"; "new"; "news"; "update";
    "trend"; "price"; "stock"; "weather"; "2024"; "2025"; "this year";
    "this month" ].

(** [chunk.text?.length || 0] *)
Definition text_length (chunk : Chunk) : nat :=
  match text chunk with
  | Some t => String.length t
  | None => 0
  end.

Definition quickAnalysis (query : string) (retrievedChunks : list Chunk)
  : M jsval :=
  let queryLower := toLowerCase query in
  let needsWebInfo :=
    existsb (fun indicator => includes queryLower indicator) webIndicators in
  let totalLength :=
    fold_left (fun sum chunk => sum + text_length chunk) retrievedChunks 0 in
  let requiresWeb := needsWebInfo || (totalLength <? 100) in
  ret (JObj
    [ ("relevance_score", JNum (if requiresWeb then 4 else 7));
      ("is_sufficient", JBool (negb requiresWeb));
      ("requires_web_search", JBool requiresWeb);
      ("reasoning",
        JStr (if requiresWeb
              then "Query appears to need current information or retrieved content is insufficient"
              else "Retrieved documents should be sufficient"));
      ("suggested_search_query", if requiresWeb then JStr query else JNull) ]).

Definition analyze (E : Env) (query : string) (retrievedChunks : list Chunk)
  (useQuickAnalysis : bool) : M jsval :=
  if useQuickAnalysis
  then quickAnalysis query retrievedChunks
  else evaluateRetrievalQuality E query retrievedChunks.

End QueryAnalyzer.

(* ================================================================== *)
(** ** webSearch.js: class WebSearcher *)

Module WebSearcher.
Import JsString.

(** An element of the array [performSearch] returns. *)
Record WebResult : Type := mkWebResult {
  title : string;
  link : string;
  description : string;
  snippet : string;
  source : string
}.

(** [field || ''] *)
Definition or_empty (field : option string) : string :=
  match field with
  | Some (String c s) => String c s
  | _ => EmptyString
  end.

(** [if (field)] on an optional string: present and not empty. *)
Definition present (field : option string) : bool :=
  match field with
  | Some (String _ _) => true
  | _ => false
  end.

Definition organic_result (result : Google.Organic.t) : WebResult :=
  {| title := or_empty (Google.Organic.title result);
     link := or_empty (Google.Organic.url result);
     description := or_empty (Google.Organic.description result);
     snippet := or_empty (Google.Organic.description result);
     source := "google" |}.

Definition performSearch (E : Env) (query : jsval) (numResults : nat)
  : M (list WebResult) :=
  try_catch
    (log_value query ;;;
     response <- call (GoogleSearch query)
                      (fun h => google_search E h query) ;;
     let results :=
       map organic_result (firstn numResults (Google.results response)) in
     match results with
     | [] => ret []
     | _ => ret results
     end)
    (fun error => ret []).

(** The text assembled from a knowledge panel. *)
Definition knowledge_text (kg : Google.KnowledgePanel.t) : string :=
  let kgText := EmptyString in
  let kgText :=
    if present (Google.KnowledgePanel.title kg)
    then kgText +++ "Title: " +++ or_empty (Google.KnowledgePanel.title kg)
         +++ nl
    else kgText in
  let kgText :=
    if present (Google.KnowledgePanel.type kg)
    then kgText +++ "Type: " +++ or_empty (Google.KnowledgePanel.type kg)
         +++ nl
    else kgText in
  let kgText :=
    if present (Google.KnowledgePanel.description kg)
    then kgText +++ "Description: "
         +++ or_empty (Google.KnowledgePanel.description kg) +++ nl
    else kgText in
  match Google.KnowledgePanel.info kg with
  | Some json => kgText +++ "Info: " +++ json +++ nl
  | None => kgText
  end.

(** [null] is [None]. *)
Definition getKnowledgeGraph (E : Env) (query : jsval) : M (option string) :=
  try_catch
    (response <- call (GoogleSearch query)
                      (fun h => google_search E h query) ;;
     match Google.knowledge_panel response with
     | Some kg => ret (Some (knowledge_text kg))
     | None => ret None
     end)
    (fun error => ret None).

(** The text assembled from a featured snippet. *)
Definition snippet_text (snippet : Google.FeaturedSnippet.t) : string :=
  let snippetText := EmptyString in
  let snippetText :=
    if present (Google.FeaturedSnippet.title snippet)
    then snippetText +++ "Title: "
         +++ or_empty (Google.FeaturedSnippet.title snippet) +++ nl
    else snippetText in
  let snippetText :=
    if present (Google.FeaturedSnippet.description snippet)
    then snippetText +++ "Content: "
         +++ or_empty (Google.FeaturedSnippet.description snippet) +++ nl
    else snippetText in
  if present (Google.FeaturedSnippet.url snippet)
  then snippetText +++ "Source: "
       +++ or_empty (Google.FeaturedSnippet.url snippet) +++ nl
  else snippetText.

Definition getFeaturedSnippet (E : Env) (query : jsval) : M (option string) :=
  try_catch
    (response <- call (GoogleSearch query)
                      (fun h => google_search E h query) ;;
     match Google.featured_snippet response with
     | Some snippet => ret (Some (snippet_text snippet))
     | None => ret None
     end)
    (fun error => ret None).

Record Comprehensive : Type := mkComprehensive {
  results : list WebResult;
  knowledgeGraph : option string;
  featuredSnippet : option string
}.

Definition comprehensiveSearch (E : Env) (query : jsval) (numResults : nat)
  : M Comprehensive :=
  results <- performSearch E query numResults ;;
  knowledgeGraph <- getKnowledgeGraph E query ;;
  featuredSnippet <- getFeaturedSnippet E query ;;
  ret {| results := results;
         knowledgeGraph := knowledgeGraph;
         featuredSnippet := featuredSnippet |}.

(** The text of one numbered web result. *)
Definition result_text (result : WebResult) (idx : nat) : string :=
  let text := "[Web Source " +++ of_nat (idx + 1) +++ ": " +++ title result
              +++ "]" +++ nl in
  let text := text +++ "URL: " +++ link result +++ nl in
  let text := text +++ "Content: " +++ description result in
  text.

(** The body of [getSearchContext] once the three searches have answered. *)
Definition assemble (found : Comprehensive) : string :=
  let context := EmptyString in
  let context :=
    if present (featuredSnippet found)
    then context +++ "=== FEATURED SNIPPET ===" +++ nl
         +++ or_empty (featuredSnippet found) +++ nl +++ nl
    else context in
  let context :=
    if present (knowledgeGraph found)
    then context +++ "=== KNOWLEDGE GRAPH ===" +++ nl
         +++ or_empty (knowledgeGraph found) +++ nl +++ nl
    else context in
  if 0 <? List.length (results found)
  then
    let context := context +++ "=== SEARCH RESULTS ===" +++ nl +++ nl in
    let contextParts := mapi result_text (results found) in
    context +++ join (nl +++ nl +++ "---" +++ nl +++ nl) contextParts
  else context.

Definition getSearchContext (E : Env) (query : jsval) (numResults : nat)
  : M string :=
  found <- comprehensiveSearch E query numResults ;;
  ret (assemble found).

End WebSearcher.

(* ================================================================== *)
(** ** retrieval.js: class Retriever *)

Module Retriever.
Import JsString.

(** The fields of a [Retriever] that the query path reads. *)
Record t : Type := mk {
  dbPath : string;
  enableCorrectiveRAG : bool;
  useQuickAnalysis : bool
}.

(** [new Retriever(apiKey, dbPath)] *)
Definition new (dbPath : string) : t :=
  {| dbPath := dbPath;
     enableCorrectiveRAG := true;
     useQuickAnalysis := false |}.

(** [setCRAGConfig({ enableCorrectiveRAG, useQuickAnalysis })]; [None] is
    [undefined]. *)
Definition setCRAGConfig (this : t) (enable quick : option bool) : t :=
  {| dbPath := dbPath this;
     enableCorrectiveRAG :=
       match enable with
       | Some b => b
       | None => enableCorrectiveRAG this
       end;
     useQuickAnalysis :=
       match quick with
       | Some b => b
       | None => useQuickAnalysis this
       end |}.

(** The [catch] branches of this class print the error and throw it again. *)
Definition rethrowing {A : Type} (m : M A) : M A :=
  try_catch m (fun error => throw error).

Definition generateQueryEmbedding (E : Env) (query : string) : M (list Q) :=
  rethrowing
    (response <- call (EmbeddingsCreate query)
                      (fun h => embeddings_create E h query) ;;
     item <- defined "Cannot read properties of undefined (reading 'embedding')"
               (hd_error (Embeddings.data response)) ;;
     ret (Embeddings.embedding item)).

(** The display loop prints [result.text.substring(0, 200)] of every row. *)
Definition display_results (results : list Chunk) : M unit :=
  if forallb (fun result => match text result with
                            | Some _ => true
                            | None => false
                            end) results
  then ret tt
  else throw (TypeError "Cannot read properties of undefined (reading 'substring')").

Definition searchSimilarDocuments (E : Env) (this : t) (query : string)
  (topK : nat) : M (list Chunk) :=
  rethrowing
    (call (LanceConnect (dbPath this))
          (fun h => lancedb_connect E h (dbPath this)) ;;;
     call (OpenTable "documents")
          (fun h => db_openTable E h "documents") ;;;
     queryEmbedding <- generateQueryEmbedding E query ;;
     results <- call (VectorSearch queryEmbedding topK)
                     (fun h => table_search E h queryEmbedding topK) ;;
     display_results results ;;;
     ret results).

(** What [retrieveContext] logs as [webResults]. *)
Record WebResults : Type := mkWebResults {
  searchQuery : jsval;
  webResults_context : string
}.

(** The object [retrieveContext] returns; [None] is [null] or a property
    that the object does not have. *)
Record Retrieved : Type := mkRetrieved {
  context : string;
  localContext : option string;
  webContext : option string;
  chunks : list Chunk;
  webResults : option WebResults;
  analysis : option jsval
}.

(** [localResults.map((result) => result.text).join("\n\n")]: [join] prints
    a missing element as the empty string. *)
Definition local_text (localResults : list Chunk) : string :=
  join (nl +++ nl)
       (map (fun result => match text result with
                           | Some t => t
                           | None => EmptyString
                           end) localResults).

Definition local_header : string := "=== LOCAL DOCUMENT CONTEXT ===".
Definition web_header : string :=
  "=== WEB SEARCH CONTEXT (Additional Information) ===".

(** The template literal of step 4. *)
Definition combine (localContext webContext : string) : string :=
  local_header +++ nl +++ nl +++ localContext +++ nl +++ nl
  +++ web_header +++ nl +++ nl +++ webContext.

Definition retrieveContext (E : Env) (this : t) (query : string) (topK : nat)
  : M Retrieved :=
  localResults <- searchSimilarDocuments E this query topK ;;
  let localContext := local_text localResults in
  if negb (enableCorrectiveRAG this)
  then ret {| context := localContext;
              localContext := None;
              webContext := None;
              chunks := localResults;
              webResults := None;
              analysis := None |}
  else
    analysis <- QueryAnalyzer.analyze E query localResults
                  (useQuickAnalysis this) ;;
    suggested <- QueryAnalyzer.field analysis "suggested_search_query" ;;
    let searchQuery := JsValue.or suggested (JStr query) in
    webContext <- WebSearcher.getSearchContext E searchQuery 3 ;;
    let webResults := {| searchQuery := searchQuery;
                         webResults_context := webContext |} in
    let combinedContext := combine localContext webContext in
    ret {| context := combinedContext;
           localContext := Some localContext;
           webContext := Some webContext;
           chunks := localResults;
           webResults := Some webResults;
           analysis := Some analysis |}.

End Retriever.

(* ================================================================== *)
(** ** A reference JSON reader

    The properties below hold for every [JSON_parse] of the environment.
    To run the model on sample completions, this is a reader of the JSON
    grammar (ECMA-404): [None] is the SyntaxError.  A [\u] escape above
    U+00FF is outside the code units of the model and is refused. *)

Module Json.

Definition is_json_space (c : ascii) : bool :=
  let n := nat_of_ascii c in
  (n =? 32) || (n =? 9) || (n =? 10) || (n =? 13).

Fixpoint skip_space (s : string) : string :=
  match s with
  | String c s' => if is_json_space c then skip_space s' else s
  | EmptyString => EmptyString
  end.

Definition digit_value (c : ascii) : option nat :=
  let n := nat_of_ascii c in
  if (48 <=? n) && (n <=? 57) then Some (n - 48) else None.

Definition hex_value (c : ascii) : option nat :=
  let n := nat_of_ascii c in
  if (48 <=? n) && (n <=? 57) then Some (n - 48)
  else if (65 <=? n) && (n <=? 70) then Some (n - 55)
  else if (97 <=? n) && (n <=? 102) then Some (n - 87)
  else None.

(** The longest run of digits at the start of [s]: its value, how many
    digits it has, and the rest. *)
Fixpoint digits (acc : Z) (count : nat) (s : string) : Z * nat * string :=
  match s with
  | String c s' =>
      match digit_value c with
      | Some d => digits (10 * acc + Z.of_nat d)%Z (S count) s'
      | None => (acc, count, s)
      end
  | EmptyString => (acc, count, s)
  end.

(** The integer part: [0], or a run of digits that does not start with
    [0]. *)
Definition integer_part (s : string) : option (Z * string) :=
  match s with
  | String "0" rest => Some (0%Z, rest)
  | _ =>
      match digits 0 0 s with
      | (_, O, _) => None
      | (v, S _, rest) => Some (v, rest)
      end
  end.

Definition fraction_part (s : string) : option (Z * nat * string) :=
  match s with
  | String "." rest =>
      match digits 0 0 rest with
      | (_, O, _) => None
      | (v, S n, rest') => Some (v, S n, rest')
      end
  | _ => Some (0%Z, 0, s)
  end.

Definition exponent_part (s : string) : option (Z * string) :=
  let signed (negative : bool) (rest : string) :=
    match digits 0 0 rest with
    | (_, O, _) => None
    | (v, S _, rest') => Some (if negative then (- v)%Z else v, rest')
    end in
  match s with
  | String c rest =>
      if Ascii.eqb c "e" || Ascii.eqb c "E" then
        match rest with
        | String "+" rest' => signed false rest'
        | String "-" rest' => signed true rest'
        | _ => signed false rest
        end
      else Some (0%Z, s)
  | EmptyString => Some (0%Z, s)
  end.

Definition scale (mantissa : Z) (decimals : nat) (exponent : Z) : Q :=
  let e := (exponent - Z.of_nat decimals)%Z in
  if (0 <=? e)%Z then inject_Z (mantissa * 10 ^ e)
  else Qmake mantissa (Z.to_pos (10 ^ (- e))).

Definition number (s : string) : option (jsval * string) :=
  let (negative, s) :=
    match s with
    | String "-" rest => (true, rest)
    | _ => (false, s)
    end in
  match integer_part s with
  | None => None
  | Some (i, s) =>
      match fraction_part s with
      | None => None
      | Some (f, decimals, s) =>
          match exponent_part s with
          | None => None
          | Some (e, s) =>
              let mantissa := (i * 10 ^ Z.of_nat decimals + f)%Z in
              let mantissa := if negative then (- mantissa)%Z else mantissa in
              Some (JNum (scale mantissa decimals e), s)
          end
      end
  end.

Definition hex4 (s : string) : option (nat * string) :=
  match s with
  | String a (String b (String c (String d rest))) =>
      match hex_value a, hex_value b, hex_value c, hex_value d with
      | Some x, Some y, Some z, Some w =>
          Some (((x * 16 + y) * 16 + z) * 16 + w, rest)
      | _, _, _, _ => None
      end
  | _ => None
  end.

(** The characters of a string after its opening quote. *)
Fixpoint characters (fuel : nat) (s : string) : option (string * string) :=
  match fuel with
  | O => None
  | S fuel' =>
      match s with
      | EmptyString => None
      | String c rest =>
          let cons (unit : ascii) (r : option (string * string)) :=
            match r with
            | Some (body, after) => Some (String unit body, after)
            | None => None
            end in
          if Ascii.eqb c "034" then Some (EmptyString, rest)
          else if nat_of_ascii c <? 32 then None
          else if Ascii.eqb c "\" then
            match rest with
            | String e rest' =>
                if Ascii.eqb e "034" then cons "034"%char (characters fuel' rest')
                else if Ascii.eqb e "\" then cons "\"%char (characters fuel' rest')
                else if Ascii.eqb e "/" then cons "/"%char (characters fuel' rest')
                else if Ascii.eqb e "b" then cons "008"%char (characters fuel' rest')
                else if Ascii.eqb e "f" then cons "012"%char (characters fuel' rest')
                else if Ascii.eqb e "n" then cons "010"%char (characters fuel' rest')
                else if Ascii.eqb e "r" then cons "013"%char (characters fuel' rest')
                else if Ascii.eqb e "t" then cons "009"%char (characters fuel' rest')
                else if Ascii.eqb e "u" then
                  match hex4 rest' with
                  | Some (code, rest'') =>
                      if code <? 256
                      then cons (ascii_of_nat code) (characters fuel' rest'')
                      else None
                  | None => None
                  end
                else None
            | EmptyString => None
            end
          else cons c (characters fuel' rest)
      end
  end.

(** A later member replaces an earlier one of the same name. *)
Fixpoint set_member (key : string) (v : jsval) (props : list (string * jsval))
  : list (string * jsval) :=
  match props with
  | [] => [(key, v)]
  | (k, old) :: rest =>
      if String.eqb k key then (k, v) :: rest
      else (k, old) :: set_member key v rest
  end.

Fixpoint value (fuel : nat) (s : string) : option (jsval * string) :=
  match fuel with
  | O => None
  | S fuel' =>
      match skip_space s with
      | String "{" rest =>
          match skip_space rest with
          | String "}" after => Some (JObj [], after)
          | _ => members fuel' [] rest
          end
      | String "[" rest =>
          match skip_space rest with
          | String "]" after => Some (JArr [], after)
          | _ => elements fuel' [] rest
          end
      | String "034" rest =>
          match characters (S (String.length rest)) rest with
          | Some (body, after) => Some (JStr body, after)
          | None => None
          end
      | String _ _ as s' =>
          if JsString.startsWith s' "true" then Some (JBool true, JsString.slice 4 s')
          else if JsString.startsWith s' "false" then Some (JBool false, JsString.slice 5 s')
          else if JsString.startsWith s' "null" then Some (JNull, JsString.slice 4 s')
          else number s'
      | EmptyString => None
      end
  end
with elements (fuel : nat) (acc : list jsval) (s : string)
  : option (jsval * string) :=
  match fuel with
  | O => None
  | S fuel' =>
      match value fuel' s with
      | Some (v, rest) =>
          match skip_space rest with
          | String "," rest' => elements fuel' (acc ++ [v]) rest'
          | String "]" after => Some (JArr (acc ++ [v]), after)
          | _ => None
          end
      | None => None
      end
  end
with members (fuel : nat) (acc : list (string * jsval)) (s : string)
  : option (jsval * string) :=
  match fuel with
  | O => None
  | S fuel' =>
      match skip_space s with
      | String "034" rest =>
          match characters (S (String.length rest)) rest with
          | Some (key, rest') =>
              match skip_space rest' with
              | String ":" rest'' =>
                  match value fuel' rest'' with
                  | Some (v, after) =>
                      match skip_space after with
                      | String "," more =>
                          members fuel' (set_member key v acc) more
                      | String "}" done =>
                          Some (JObj (set_member key v acc), done)
                      | _ => None
                      end
                  | None => None
                  end
              | _ => None
              end
          | None => None
          end
      | _ => None
      end
  end.

(** [JSON.parse(text)]: one value, white space around it, nothing else. *)
Definition parse (text : string) : option jsval :=
  match value (S (String.length text)) text with
  | Some (v, rest) =>
      match skip_space rest with
      | EmptyString => Some v
      | String _ _ => None
      end
  | None => None
  end.

End Json.

(* ================================================================== *)
(** ** A sample environment *)

Module Sample.
Import JsString.

(** Three rows of a [documents] table, closest first. *)
Definition rows : list Chunk :=
  [ mkChunk (Some "Corrective RAG grades the retrieved documents before it answers.")
            (Some "text") (Some 1) (Some 0.12%Q);
    mkChunk (Some "A vector index returns the nearest chunks first.")
            (Some "text") (Some 2) (Some 0.25%Q);
    mkChunk (Some "Diagram of the query pipeline")
            (Some "image") None (Some 0.4%Q) ].

Definition response : Google.Response :=
  Google.mkResponse
    [ Google.Organic.mk (Some "CRAG paper") (Some "https://example.org/crag")
        (Some "Corrective retrieval augmented generation.");
      Google.Organic.mk (Some "RAG survey") None (Some "A survey.") ]
    (Some (Google.KnowledgePanel.mk (Some "RAG") None
             (Some "Retrieval-augmented generation") None))
    (Some (Google.FeaturedSnippet.mk None (Some "CRAG corrects retrieval.")
             (Some "https://example.org"))).

(** The index holds [rows]; the language model answers with [completion]
    and the search engine with [web]. *)
Definition env (completion : Error + string) (web : Error + Google.Response)
  : Env :=
  {| JSON_parse := Json.parse;
     lancedb_connect := fun _ _ => inr tt;
     db_openTable := fun _ _ => inr tt;
     embeddings_create := fun _ _ =>
       inr (Embeddings.mkResponse [Embeddings.mkItem [1%Q; 0%Q]]);
     table_search := fun _ _ k => inr (firstn k rows);
     chat_completions_create := fun _ _ _ =>
       match completion with
       | inl error => inl error
       | inr text =>
           inr (Chat.mkResponse [Chat.mkChoice (Chat.mkMessage (Some text))])
       end;
     google_search := fun _ _ => web |}.

Definition offline : Error := mkError "Error" "getaddrinfo ENOTFOUND".

Definition retriever : Retriever.t := Retriever.new "./lancedb".

(** A completion that is no JSON. *)
Definition refusal : string := "I cannot help".

(** A fenced completion whose suggested query is the empty string. *)
Definition empty_suggestion : string :=
  "```json" +++ nl +++ "{" +++ quote +++ "relevance_score" +++ quote
  +++ ": 8, " +++ quote +++ "is_sufficient" +++ quote +++ ": true, "
  +++ quote +++ "requires_web_search" +++ quote +++ ": false, "
  +++ quote +++ "reasoning" +++ quote +++ ": " +++ quote +++ "covered"
  +++ quote +++ ", " +++ quote +++ "suggested_search_query" +++ quote
  +++ ": " +++ quote +++ quote +++ "}" +++ nl +++ "```".

End Sample.

Module SampleRuns.
Import JsString Retriever.

(** The search engine is down and the language model refuses. *)
Definition degraded : Env :=
  Sample.env (inr Sample.refusal) (inl Sample.offline).

(** Everything answers; the model suggests the empty query. *)
Definition online : Env :=
  Sample.env (inr Sample.empty_suggestion) (inr Sample.response).

Definition local2 : list Chunk := firstn 2 Sample.rows.

(** The history after the retrieval step of the query [hello]. *)
Definition retrieved (E : Env) : History :=
  snd (searchSimilarDocuments E Sample.retriever "hello" 2 []).

(** The history after the analysis of the query [hello]. *)
Definition analysed (E : Env) : History :=
  snd (QueryAnalyzer.analyze E "hello" local2 false (retrieved E)).

(** What [JSON.parse] reads in [Sample.empty_suggestion]. *)
Definition empty_suggestion_verdict : jsval :=
  JObj [ ("relevance_score", JNum 8);
         ("is_sufficient", JBool true);
         ("requires_web_search", JBool false);
         ("reasoning", JStr "covered");
         ("suggested_search_query", JStr EmptyString) ].

End SampleRuns.

(* ================================================================== *)
(** ** The data model of the specification *)

(** QualityVerdict: the outcome of the analysis, read off the object the
    analyzer returns. *)
Module Verdict.

Record t : Type := mk {
  relevanceScore : Q;
  isSufficient : bool;
  requiresWebSearch : bool;
  reasoning : string;
  suggestedQuery : option string
}.

Definition of_object (v : jsval) : option t :=
  match JsValue.get v "relevance_score", JsValue.get v "is_sufficient",
        JsValue.get v "requires_web_search", JsValue.get v "reasoning",
        JsValue.get v "suggested_search_query" with
  | Some (JNum score), Some (JBool sufficient), Some (JBool web),
    Some (JStr why), Some (JStr suggestion) =>
      Some (mk score sufficient web why (Some suggestion))
  | Some (JNum score), Some (JBool sufficient), Some (JBool web),
    Some (JStr why), Some JNull =>
      Some (mk score sufficient web why None)
  | _, _, _, _, _ => None
  end.

(** The safe default of the specification. *)
Definition safe_default (v : t) : Prop :=
  relevanceScore v = 5%Q /\ isSufficient v = true
  /\ requiresWebSearch v = false /\ suggestedQuery v = None.

End Verdict.

(** [sub] occurs in [s]. *)
Definition occurs_in (sub s : string) : Prop :=
  exists before after, s = before +++ sub +++ after.

(** The lowercased query contains a web-indicator keyword. *)
Definition mentions_web_indicator (query : string) : Prop :=
  exists keyword,
    In keyword QueryAnalyzer.webIndicators
    /\ occurs_in keyword (JsString.toLowerCase query).

(** The total length of the chunks' text fields. *)
Definition total_text_length (retrievedChunks : list Chunk) : nat :=
  list_sum (map QueryAnalyzer.text_length retrievedChunks).

(* ================================================================== *)
(** ** Notions of the specification over the model *)

Section Notions.
Import JsString QueryAnalyzer WebSearcher Retriever.
Variable E : Env.

(** The boolean [requiresWeb] of [quickAnalysis]. *)
Definition requiresWeb (query : string) (retrievedChunks : list Chunk) : bool :=
  existsb (fun indicator => JsString.includes (JsString.toLowerCase query) indicator)
    webIndicators
  || (fold_left (fun sum chunk => sum + text_length chunk) retrievedChunks 0
      <? 100).

(** The completion of a response: [response.choices[0].message.content]
    when it is a string. *)
Definition completion (response : Chat.Response) : option string :=
  match Chat.choices response with
  | choice :: _ => Chat.content (Chat.message choice)
  | [] => None
  end.

(** The completion call at history [h] fails, or it answers with a
    completion that [JSON.parse] refuses (after the fenced block, if any,
    has been taken out and the text trimmed). *)
Definition completion_unusable (h : History) (prompt : string) : Prop :=
  (exists error,
      chat_completions_create E h systemContent prompt = inl error)
  \/ (exists response content,
        chat_completions_create E h systemContent prompt = inr response
        /\ completion response = Some content
        /\ JSON_parse E (json_text content) = None).

(** The calls [performSearch] makes: none when printing the query throws. *)
Definition performSearch_calls (query : jsval) : list Event :=
  if JsValue.interpolation_throws query then [] else [GoogleSearch query].

(** The calls of one [getSearchContext]. *)
Definition web_calls (query : jsval) : list Event :=
  performSearch_calls query ++ [GoogleSearch query; GoogleSearch query].

Definition organic_found (query : jsval) (numResults : nat) (h : History)
  : list WebResult :=
  if JsValue.interpolation_throws query then []
  else match google_search E h query with
       | inr response =>
           map organic_result (firstn numResults (Google.results response))
       | inl _ => []
       end.

Definition knowledge_found (query : jsval) (h : History) : option string :=
  match google_search E h query with
  | inr response =>
      option_map knowledge_text (Google.knowledge_panel response)
  | inl _ => None
  end.

Definition featured_found (query : jsval) (h : History) : option string :=
  match google_search E h query with
  | inr response =>
      option_map snippet_text (Google.featured_snippet response)
  | inl _ => None
  end.

(** What the three searches of [comprehensiveSearch] give when they start
    at history [h]. *)
Definition found (query : jsval) (numResults : nat) (h : History)
  : Comprehensive :=
  {| results := organic_found query numResults h;
     knowledgeGraph :=
       knowledge_found query (h ++ performSearch_calls query);
     featuredSnippet :=
       featured_found query
         ((h ++ performSearch_calls query) ++ [GoogleSearch query]) |}.

(** The history after each call of [searchSimilarDocuments]. *)
Definition connected (this : t) (h : History) : History :=
  h ++ [LanceConnect (dbPath this)].
Definition opened (this : t) (h : History) : History :=
  connected this h ++ [OpenTable "documents"].
Definition embedded (this : t) (query : string) (h : History) : History :=
  opened this h ++ [EmbeddingsCreate query].

Definition has_text (row : Chunk) : bool :=
  match text row with
  | Some _ => true
  | None => false
  end.

(** A failure of the retrieval step: the connection, the table, the
    embedding call or the vector search fails, or one of them answers with
    something the code cannot read (no embedding, a row without text). *)
Inductive retrieval_failure (this : t) (query : string) (topK : nat)
  (h : History) : Error -> Prop :=
| connect_fails error :
    lancedb_connect E h (dbPath this) = inl error ->
    retrieval_failure this query topK h error
| openTable_fails error :
    db_openTable E (connected this h) "documents" = inl error ->
    retrieval_failure this query topK h error
| embedding_fails error :
    embeddings_create E (opened this h) query = inl error ->
    retrieval_failure this query topK h error
| embedding_missing response :
    embeddings_create E (opened this h) query = inr response ->
    Embeddings.data response = [] ->
    retrieval_failure this query topK h
      (TypeError "Cannot read properties of undefined (reading 'embedding')")
| search_fails error queryEmbedding :
    table_search E (embedded this query h) queryEmbedding topK = inl error ->
    retrieval_failure this query topK h error
| row_without_text rows queryEmbedding :
    table_search E (embedded this query h) queryEmbedding topK = inr rows ->
    forallb has_text rows = false ->
    retrieval_failure this query topK h
      (TypeError "Cannot read properties of undefined (reading 'substring')").

(** The search query of step 3: [analysis.suggested_search_query || query]. *)
Definition search_query (suggested : jsval) (query : string) : jsval :=
  JsValue.or suggested (JStr query).

(** The two section headers occur in the context, the local one first. *)
Definition headers_in_order (context : string) : Prop :=
  exists before between after,
    context = before +++ "LOCAL DOCUMENT CONTEXT" +++ between
              +++ "WEB SEARCH CONTEXT" +++ after.

Definition separator : string := nl +++ nl +++ "---" +++ nl +++ nl.

(** The featured snippet, when there is one. *)
Definition featured_block (featuredSnippet : option string) : string :=
  match featuredSnippet with
  | Some (String c s) =>
      "=== FEATURED SNIPPET ===" +++ nl +++ String c s +++ nl +++ nl
  | _ => EmptyString
  end.

(** The knowledge panel, when there is one. *)
Definition knowledge_block (knowledgeGraph : option string) : string :=
  match knowledgeGraph with
  | Some (String c s) =>
      "=== KNOWLEDGE GRAPH ===" +++ nl +++ String c s +++ nl +++ nl
  | _ => EmptyString
  end.

(** The [i]-th web result: title line, URL line, content line. *)
Definition web_source (i : nat) (result : WebResult) : string :=
  "[Web Source " +++ of_nat i +++ ": " +++ title result +++ "]" +++ nl
  +++ "URL: " +++ link result +++ nl
  +++ "Content: " +++ snippet result.

(** The web results numbered from 1, in the order of the search engine. *)
Definition numbered (results : list WebResult) : list string :=
  map (fun p => web_source (fst p) (snd p))
      (List.combine (seq 1 (List.length results)) results).

Definition results_block (results : list WebResult) : string :=
  match results with
  | [] => EmptyString
  | _ :: _ =>
      "=== SEARCH RESULTS ===" +++ nl +++ nl
      +++ join separator (numbered results)
  end.

(** The web section: featured snippet, knowledge panel, numbered results. *)
Definition web_layout (found : Comprehensive) : string :=
  featured_block (featuredSnippet found)
  +++ knowledge_block (knowledgeGraph found)
  +++ results_block (results found).

(** The fused context: the local chunk texts joined by blank lines under
    the first header, the web section under the second. *)
Definition fused_layout (texts : list string) (web : string) : string :=
  "=== LOCAL DOCUMENT CONTEXT ===" +++ nl +++ nl
  +++ join (nl +++ nl) texts +++ nl +++ nl
  +++ "=== WEB SEARCH CONTEXT (Additional Information) ===" +++ nl +++ nl
  +++ web.

(** [a] is at least as close to the query as [b]. *)
Definition closer_or_equal (a b : Chunk) : Prop :=
  match _distance a, _distance b with
  | Some x, Some y => (x <= y)%Q
  | _, _ => False
  end.

(** The ordered-search contract of the vector index over a table of [N]
    rows: a search that answers gives the [min k N] nearest rows, closest
    first, each with its text. *)
Definition honours_search_contract (E : Env) (N : nat) : Prop :=
  forall h queryEmbedding k rows,
    table_search E h queryEmbedding k = inr rows ->
    List.length rows = Nat.min k N
    /\ Sorted closer_or_equal rows
    /\ forallb has_text rows = true.

(** The retrieval is unavailable: a collaborator of the retrieval step
    failed, or the embedding service answered without an embedding. *)
Definition retrieval_unavailable (E : Env) (this : t) (query : string)
  (topK : nat) (h : History) (error : Error) : Prop :=
  lancedb_connect E h (dbPath this) = inl error
  \/ db_openTable E (connected this h) "documents" = inl error
  \/ embeddings_create E (opened this h) query = inl error
  \/ (exists response,
        embeddings_create E (opened this h) query = inr response
        /\ Embeddings.data response = [])
  \/ (exists queryEmbedding,
        table_search E (embedded this query h) queryEmbedding topK
        = inl error).

End Notions.

(** C5 as the specification states it: whenever the verdict has a
    suggested query, that string is the query passed to the web search. *)
Definition passes_suggestion_when_present : Prop :=
  forall (E : Env) (this : Retriever.t) (query : string) (topK : nat)
         (h h1 h2 : History) (localResults : list Chunk)
         (verdict : jsval) (suggestion : string),
    Retriever.enableCorrectiveRAG this = true ->
    Retriever.searchSimilarDocuments E this query topK h
    = (inr localResults, h1) ->
    QueryAnalyzer.analyze E query localResults
      (Retriever.useQuickAnalysis this) h1 = (inr verdict, h2) ->
    JsValue.get verdict "suggested_search_query" = Some (JStr suggestion) ->
    exists fused calls,
      Retriever.retrieveContext E this query topK h = (inr fused, h2 ++ calls)
      /\ option_map Retriever.searchQuery (Retriever.webResults fused)
         = Some (JStr suggestion).

(* ================================================================== *)
(** ** Further notions: white space and fences *)

(** [s] holds nothing but white space. *)
Fixpoint blank (s : string) : bool :=
  match s with
  | EmptyString => true
  | String c s' => JsString.is_space c && blank s'
  end.

(** [s] is empty or starts with a code unit that is no white space. *)
Definition starts_solid (s : string) : Prop :=
  match s with
  | EmptyString => True
  | String c _ => JsString.is_space c = false
  end.

(** A completion that wraps [body] in a [```json] fence, with prose before
    and after it and white space around the body. *)
Definition fenced (pre ws1 body ws2 post : string) : string :=
  pre +++ "```json" +++ ws1 +++ body +++ ws2 +++ "```" +++ post.


(** Whether the logging statements after [JSON.parse] run through on
    [analysis]: it is not [null], its score and its reasoning print, and
    so does the suggested query when it is shown. *)
Definition displays (analysis : jsval) : bool :=
  match JsValue.get analysis "relevance_score",
        JsValue.get analysis "reasoning",
        JsValue.get analysis "requires_web_search",
        JsValue.get analysis "suggested_search_query" with
  | Some score, Some why, Some web, Some suggested =>
      negb (JsValue.interpolation_throws score)
      && negb (JsValue.interpolation_throws why)
      && negb (JsValue.truthy web && JsValue.truthy suggested
               && JsValue.interpolation_throws suggested)
  | _, _, _, _ => false
  end.

(** The one call of the LLM-based strategy. *)
Definition analysis_call (query : string) (previews : list string) : Event :=
  ChatCompletionsCreate QueryAnalyzer.systemContent
    (QueryAnalyzer.analysisPrompt query
       (JsString.join (JsString.nl +++ JsString.nl) previews)).


(** The [requires_web_search] of the verdict an analysis returned. *)
Definition web_requested (outcome : (Error + jsval) * History) : option bool :=
  match fst outcome with
  | inr verdict =>
      match JsValue.get verdict "requires_web_search" with
      | Some (JBool b) => Some b
      | _ => None
      end
  | inl _ => None
  end.

(** The [suggested_search_query] of the verdict an analysis returned. *)
Definition suggested_by (outcome : (Error + jsval) * History) : option jsval :=
  match fst outcome with
  | inr verdict => JsValue.get verdict "suggested_search_query"
  | inl _ => None
  end.


(* ================================================================== *)
(** ** webSearch.js: [WebSearcher.quickSearch] *)

Module QuickSearch.
Import JsString.

(** A property of a result inside a template literal; [None] is a
    property that is not there ([undefined]). *)
Definition shown (field : option string) : string :=
  match field with
  | Some s => s
  | None => "undefined"
  end.

(** [`[${idx + 1}] ${result.title}\n${result.description}`] *)
Definition result_line (result : Google.Organic.t) (idx : nat) : string :=
  "[" +++ of_nat (idx + 1) +++ "] " +++ shown (Google.Organic.title result)
  +++ nl +++ shown (Google.Organic.description result).

(** The query is printed before the [try] block is entered. *)
Definition quickSearch (E : Env) (query : jsval) (numResults : nat)
  : M string :=
  log_value query ;;;
  try_catch
    (response <- call (GoogleSearch query)
                      (fun h => google_search E h query) ;;
     let results := firstn numResults (Google.results response) in
     let context := join (nl +++ nl) (mapi result_line results) in
     ret context)
    (fun error => ret EmptyString).

End QuickSearch.

(* ================================================================== *)
(** ** augment.js: class Augmenter *)

Module Augmenter.
Import JsString.

Definition augmentQueryWithContext (query context : string) : string :=
  "You are a helpful assistant. Answer the user's question based on the following context. If the answer cannot be found in the context, say 'I dont Know - Call ThanhNC40'."
  +++ nl +++ nl +++ "Context:" +++ nl +++ context +++ nl +++ nl
  +++ "User Question: " +++ query +++ nl +++ nl +++ "Answer:".

(** How one turn of the loop of [startQASession] ends. *)
Inductive Control : Type :=
| Break
| Continue.

(** One turn of the [while (true)] loop of [startQASession], on the line
    [answer] that the user typed at the prompt.  [generateAnswer] is the
    method of the [generator] passed to the session. *)
Definition turn {A : Type} (E : Env) (retriever : Retriever.t)
  (generateAnswer : string -> M A) (answer : string) : M Control :=
  try_catch
    (let query := trim answer in
     if String.eqb (toLowerCase query) "exit"
        || String.eqb (toLowerCase query) "quit"
     then ret Break
     else
       match query with
       | EmptyString => ret Continue
       | String _ _ =>
           retrieved <- Retriever.retrieveContext E retriever query 30 ;;
           let augmentedPrompt :=
             augmentQueryWithContext query (Retriever.context retrieved) in
           generateAnswer augmentedPrompt ;;;
           ret Continue
       end)
    (fun error => ret Continue).

End Augmenter.


(* ================================================================== *)
(** ** indexing.js: [Indexer.chunkText] *)

Module Indexer.
Import JsString.

(** A code unit of the class [[.!?]]. *)
Definition is_end (c : ascii) : bool :=
  Ascii.eqb c "." || Ascii.eqb c "!" || Ascii.eqb c "?".

Definition next_is_space (s : string) : bool :=
  match s with
  | String d _ => is_space d
  | EmptyString => false
  end.

(** [text.split(/[.!?]\s+/)]: a piece ends at a sentence mark that white
    space follows; the mark and all the white space after it are dropped.
    [skipping] says that the white space after a mark is being passed. *)
Fixpoint split_sentences (skipping : bool) (s : string) : list string :=
  match s with
  | EmptyString => [EmptyString]
  | String c s' =>
      if skipping && is_space c then split_sentences true s'
      else if is_end c && next_is_space s'
      then EmptyString :: split_sentences true s'
      else match split_sentences false s' with
           | piece :: pieces => String c piece :: pieces
           | [] => [String c EmptyString]
           end
  end.

(** [s.split(" ")] *)
Fixpoint split_spaces (s : string) : list string :=
  match s with
  | EmptyString => [EmptyString]
  | String c s' =>
      if Ascii.eqb c " " then EmptyString :: split_spaces s'
      else match split_spaces s' with
           | word :: words => String c word :: words
           | [] => [String c EmptyString]
           end
  end.

(** [words.slice(-overlap / 10)]: the last [overlap / 10] words (the
    quotient rounded towards zero), and all of them when that is 0, since
    [slice(-0)] is [slice(0)]. *)
Definition last_words (overlap : nat) (words : list string) : list string :=
  let k := overlap / 10 in
  if k =? 0 then words else skipn (List.length words - k) words.

(** The body of the [for] loop on [(chunks, currentChunk)]. *)
Definition chunk_step (chunkSize overlap : nat)
  (state : list string * string) (sentence : string)
  : list string * string :=
  let (chunks, currentChunk) := state in
  if (chunkSize <? String.length (currentChunk +++ sentence))
     && (0 <? String.length currentChunk)
  then
    let words := split_spaces currentChunk in
    (chunks ++ [trim currentChunk],
     join " " (last_words overlap words) +++ " " +++ sentence)
  else (chunks, currentChunk +++ sentence +++ ". ").

Definition chunkText (text : string) (chunkSize overlap : nat) : list string :=
  let sentences := split_sentences false text in
  let (chunks, currentChunk) :=
    fold_left (chunk_step chunkSize overlap) sentences ([], EmptyString) in
  if 0 <? String.length (trim currentChunk)
  then chunks ++ [trim currentChunk]
  else chunks.

(** A chunk object of the indexing pipeline: a text chunk
    [{ text, contentType }] or an image chunk.  [None] is a property that
    is missing or null. *)
Module Source.
Record t : Type := mk {
  text : option string;
  combinedDescription : option string;
  contentType : option string;
  pageNumber : option nat;
  imagePath : option string;
  ocrText : option string;
  visionDescription : option string
}.
End Source.

(** What [storeInVectorDB] and [indexPDF] find in their arrays: a string
    or a chunk object. *)
Inductive Piece : Type :=
| Plain (chunk : string)
| Described (chunk : Source.t).

(** [if (field)] on an optional string. *)
Definition given (field : option string) : bool :=
  match field with
  | Some (String _ _) => true
  | _ => false
  end.

(** The string of a field that is [given]. *)
Definition value (field : option string) : string :=
  match field with
  | Some s => s
  | None => EmptyString
  end.

(** [field && field.trim().length > 0] *)
Definition meaningful (field : option string) : bool :=
  given field && (0 <? String.length (trim (value field))).

(** [a || b] on optional strings. *)
Definition or_else (a b : option string) : option string :=
  if given a then a else b.

(** [if (chunk.pageNumber)] *)
Definition page_given (page : option nat) : bool :=
  match page with
  | Some (S _) => true
  | _ => false
  end.

(** [${chunk.pageNumber || 'unknown'}] *)
Definition page_or_unknown (page : option nat) : string :=
  match page with
  | Some (S n) => of_nat (S n)
  | _ => "unknown"
  end.

(** [${chunk.pageNumber}] of a page number that is given. *)
Definition page_shown (page : option nat) : string :=
  match page with
  | Some n => of_nat n
  | None => "undefined"
  end.

(** The parts pushed one after the other, each under its [if]. *)
Definition described_parts (ocr vision page : string) (chunk : Source.t)
  : list string :=
  (if given (Source.ocrText chunk)
   then [ocr +++ value (Source.ocrText chunk)] else [])
  ++ (if given (Source.visionDescription chunk)
      then [vision +++ value (Source.visionDescription chunk)] else [])
  ++ (if page_given (Source.pageNumber chunk)
      then [page +++ page_shown (Source.pageNumber chunk)] else []).

(** [parts.length > 0 ? parts.join(". ") : fallback] *)
Definition joined_or (parts : list string) (fallback : string) : string :=
  if 0 <? List.length parts then join ". " parts else fallback.

(** An object of the array [data] of [storeInVectorDB]. *)
Module StoredRow.
Record t : Type := mk {
  text : string;
  vector : option (list Q);
  id : nat;
  contentType : string;
  pageNumber : option nat;
  imagePath : option string;
  ocrText : option string;
  visionDescription : option string
}.
End StoredRow.

(** The text of a row made from a chunk object: the chunk's text or its
    combined description, and a description made from the metadata when
    that is missing or blank. *)
Definition row_text (chunk : Source.t) : string :=
  let text := or_else (Source.text chunk) (Source.combinedDescription chunk) in
  if negb (given text) || (String.length (trim (value text)) =? 0)
  then
    joined_or
      (described_parts "Contains text: " "Visual content: " "From page " chunk)
      ("Image content from page "
       +++ page_or_unknown (Source.pageNumber chunk))
  else value text.

(** The callback of [chunks.map] in [storeInVectorDB]. *)
Definition row_of (embeddings : list (list Q)) (piece : Piece) (index : nat)
  : StoredRow.t :=
  match piece with
  | Plain chunk =>
      {| StoredRow.text := chunk;
         StoredRow.vector := nth_error embeddings index;
         StoredRow.id := index;
         StoredRow.contentType := "text";
         StoredRow.pageNumber := None;
         StoredRow.imagePath := None;
         StoredRow.ocrText := None;
         StoredRow.visionDescription := None |}
  | Described chunk =>
      {| StoredRow.text := row_text chunk;
         StoredRow.vector := nth_error embeddings index;
         StoredRow.id := index;
         StoredRow.contentType :=
           if given (Source.contentType chunk)
           then value (Source.contentType chunk) else "text";
         StoredRow.pageNumber := Source.pageNumber chunk;
         StoredRow.imagePath :=
           if given (Source.imagePath chunk)
           then Source.imagePath chunk else None;
         StoredRow.ocrText :=
           if given (Source.ocrText chunk)
           then Source.ocrText chunk else None;
         StoredRow.visionDescription :=
           if given (Source.visionDescription chunk)
           then Source.visionDescription chunk else None |}
  end.

(** The array [data] that [storeInVectorDB] hands to [createTable]. *)
Definition store_data (chunks : list Piece) (embeddings : list (list Q))
  : list StoredRow.t :=
  mapi (row_of embeddings) chunks.

(** The text that [indexPDF] embeds for a chunk: the callback of
    [allChunks.map] of its step 5. *)
Definition embedding_text (piece : Piece) : string :=
  match piece with
  | Plain chunk => chunk
  | Described chunk =>
      let page := page_or_unknown (Source.pageNumber chunk) in
      let text : option string :=
        if meaningful (Source.ocrText chunk) then
          let text := "Image from page " +++ page +++ ": "
                      +++ value (Source.ocrText chunk) in
          Some (if given (Source.visionDescription chunk)
                then text +++ " Visual context: "
                     +++ value (Source.visionDescription chunk)
                else text)
        else if meaningful (Source.combinedDescription chunk) then
          Source.combinedDescription chunk
        else if meaningful (Source.visionDescription chunk) then
          Some ("Image from page " +++ page +++ ": "
                +++ value (Source.visionDescription chunk))
        else if meaningful (Source.text chunk) then
          Source.text chunk
        else
          Some (joined_or
                  (described_parts "Text content: " "Visual description: "
                     "From page " chunk)
                  ("Image content from page " +++ page
                   +++ " containing visual information")) in
      if negb (given text) || (String.length (trim (value text)) =? 0)
      then "Visual content from page " +++ page
           +++ " with graphical elements, diagrams, or illustrations"
      else value text
  end.

(** The filter of [indexPDF] before the embeddings are generated: the
    chunks whose text is not blank, and those texts. *)
Definition valid_chunks (allChunks : list Piece) : list Piece * list string :=
  fold_left
    (fun valid pair =>
       let chunk := fst pair in
       let text := snd pair in
       if meaningful (Some text)
       then (fst valid ++ [chunk], snd valid ++ [text])
       else valid)
    (List.combine allChunks (map embedding_text allChunks))
    ([], []).

End Indexer.


(** The sentences put together again, each followed by a full stop and a
    space: what [currentChunk] is while no chunk overflows. *)
Definition rejoin (sentences : list string) (currentChunk : string) : string :=
  fold_left (fun chunk sentence => chunk +++ sentence +++ ". ")
    sentences currentChunk.

(** The length of the pieces of a split, two code units counted for the
    separator after each. *)
Fixpoint weight (pieces : list string) : nat :=
  match pieces with
  | [] => 0
  | piece :: rest => String.length piece + 2 + weight rest
  end.


(** The user asked to leave the session. *)
Definition asks_to_leave (answer : string) : Prop :=
  JsString.toLowerCase (JsString.trim answer) = "exit"
  \/ JsString.toLowerCase (JsString.trim answer) = "quit".

(** What the loop of [chunkText] keeps: the chunks are trimmed, and either
    a chunk has been pushed or the current chunk holds more than white
    space. *)
Definition chunking_invariant (state : list string * string) : Prop :=
  Forall (fun chunk => JsString.trim chunk = chunk) (fst state)
  /\ (fst state <> [] \/ blank (snd state) = false).

(* ================================================================== *)
(** ** Further sample data *)

Module SampleMore.
Import JsString.

(** A row whose text did not come back from the index. *)
Definition bare_row : Chunk := mkChunk None None None None.

(** The previews of the two nearest sample rows. *)
Definition previews2 : list string :=
  [ "[Chunk 1]: Corrective RAG grades the retrieved documents before it answers....";
    "[Chunk 2]: A vector index returns the nearest chunks first...." ].

(** The language model answers [null]. *)
Definition answers_null : Env :=
  Sample.env (inr "null") (inr Sample.response).

(** The first search of the engine fails, the later ones answer. *)
Definition flaky : Env :=
  {| JSON_parse := Json.parse;
     lancedb_connect := fun _ _ => inr tt;
     db_openTable := fun _ _ => inr tt;
     embeddings_create := fun _ _ =>
       inr (Embeddings.mkResponse [Embeddings.mkItem [1%Q; 0%Q]]);
     table_search := fun _ _ k => inr (firstn k Sample.rows);
     chat_completions_create := fun _ _ _ => inl Sample.offline;
     google_search := fun h _ =>
       match h with
       | [] => inl Sample.offline
       | _ :: _ => inr Sample.response
       end |}.

(** The retriever switched to the heuristic strategy. *)
Definition quick_retriever : Retriever.t :=
  Retriever.setCRAGConfig Sample.retriever None (Some true).

(** A generator that answers nothing. *)
Definition silent (prompt : string) : M (option string) := ret None.

(** A generator that fails. *)
Definition failing (prompt : string) : M (option string) :=
  throw Sample.offline.

(** An image chunk that brought nothing but its page. *)
Definition empty_image : Indexer.Source.t :=
  Indexer.Source.mk None None (Some "image") (Some 4) None None None.

(** A text chunk as [indexPDF] builds it. *)
Definition text_chunk : Indexer.Source.t :=
  Indexer.Source.mk (Some "Corrective RAG.") None (Some "text") None None
    None None.

End SampleMore.

(* ================================================================== *)
(** * Properties *)

(** ** Properties of the string operations *)

Section StringFacts.
Import JsString.

Lemma append_empty_r (s : string) : s +++ EmptyString = s.
Proof. induction s as [|c s IH]; simpl; [reflexivity | now rewrite IH]. Qed.

Lemma append_assoc (a b c : string) : (a +++ b) +++ c = a +++ b +++ c.
Proof. induction a as [|x a IH]; simpl; [reflexivity | now rewrite IH]. Qed.

Lemma startsWith_spec (s p : string) :
  startsWith s p = true <-> exists rest, s = p +++ rest.
Proof.
  revert s; induction p as [|a p IH]; intros s.
  - split; [intros _; now exists s | now destruct s].
  - destruct s as [|b s]; simpl.
    + split; [discriminate | intros [rest H]; discriminate].
    + rewrite andb_true_iff, Ascii.eqb_eq, IH. split.
      * intros [-> [rest ->]]. now exists rest.
      * intros [rest H]. injection H as -> ->. split; [reflexivity | now exists rest].
Qed.

Lemma includes_spec (s sub : string) :
  includes s sub = true <-> occurs_in sub s.
Proof.
  unfold occurs_in. induction s as [|c s IH]; cbn [includes].
  - rewrite orb_false_r, startsWith_spec. split.
    + intros [rest H]. now exists EmptyString, rest.
    + intros [[|x before] [after H]]; simpl in H.
      * now exists after.
      * discriminate.
  - rewrite orb_true_iff, startsWith_spec, IH. split.
    + intros [[rest H] | [before [after H]]].
      * now exists EmptyString, rest.
      * exists (String c before), after. simpl. now rewrite H.
    + intros [[|x before] [after H]]; simpl in H.
      * left. now exists after.
      * right. injection H as _ H. now exists before, after.
Qed.

End StringFacts.

(** ** Properties of the heuristic strategy *)

Section Heuristic.
Import QueryAnalyzer.

Lemma reduce_lengths (retrievedChunks : list Chunk) (start : nat) :
  fold_left (fun sum chunk => sum + text_length chunk) retrievedChunks start
  = start + total_text_length retrievedChunks.
Proof.
  unfold total_text_length. revert start.
  induction retrievedChunks as [|chunk rest IH]; intros start; simpl.
  - lia.
  - rewrite IH. lia.
Qed.

Lemma needsWebInfo_spec (query : string) :
  existsb (fun indicator => JsString.includes (JsString.toLowerCase query) indicator)
    webIndicators = true
  <-> mentions_web_indicator query.
Proof.
  unfold mentions_web_indicator. rewrite existsb_exists.
  split; intros [keyword [Hin H]]; exists keyword; split; trivial;
    now apply includes_spec.
Qed.

Lemma requiresWeb_spec (query : string) (retrievedChunks : list Chunk) :
  requiresWeb query retrievedChunks = true
  <-> mentions_web_indicator query \/ total_text_length retrievedChunks < 100.
Proof.
  unfold requiresWeb.
  rewrite orb_true_iff, needsWebInfo_spec, reduce_lengths, Nat.ltb_lt.
  reflexivity.
Qed.

(** C1.  For every query and every list of chunks, [quickAnalysis] returns
    (without throwing and without calling a collaborator) a verdict whose
    [requiresWebSearch] holds exactly when the lowercased query contains a
    web-indicator keyword or the total length of the chunks' text fields is
    below 100; its [relevanceScore] is 4 if [requiresWebSearch] and 7
    otherwise, [isSufficient] is the negation of [requiresWebSearch], and
    [suggestedQuery] is the original query if [requiresWebSearch] and null
    otherwise. *)
Theorem quickAnalysis_verdict (query : string) (retrievedChunks : list Chunk)
  (h : History) :
  exists object verdict,
    quickAnalysis query retrievedChunks h = (inr object, h)
    /\ Verdict.of_object object = Some verdict
    /\ (Verdict.requiresWebSearch verdict = true
        <-> mentions_web_indicator query
            \/ total_text_length retrievedChunks < 100)
    /\ Verdict.relevanceScore verdict
       = (if Verdict.requiresWebSearch verdict then 4%Q else 7%Q)
    /\ Verdict.isSufficient verdict = negb (Verdict.requiresWebSearch verdict)
    /\ Verdict.suggestedQuery verdict
       = (if Verdict.requiresWebSearch verdict then Some query else None).
Proof.
  unfold quickAnalysis, ret. fold (requiresWeb query retrievedChunks).
  pose proof (requiresWeb_spec query retrievedChunks) as Hspec.
  destruct (requiresWeb query retrievedChunks) eqn:Hweb.
  - eexists; eexists. split; [reflexivity|]. split; [reflexivity|]. simpl.
    repeat split; try reflexivity; apply Hspec; trivial.
  - eexists; eexists. split; [reflexivity|]. split; [reflexivity|]. simpl.
    repeat split; try reflexivity; try discriminate.
    intros H. apply Hspec in H. discriminate.
Qed.

(** C9.  The heuristic strategy is deterministic and makes no network call:
    whatever the collaborators are and whatever happened before, two
    invocations on the same query and the same chunks return the same
    verdict, and neither adds a call to the history. *)
Theorem quickAnalysis_deterministic (E1 E2 : Env) (query : string)
  (retrievedChunks : list Chunk) (h1 h2 : History) :
  fst (analyze E1 query retrievedChunks true h1)
  = fst (analyze E2 query retrievedChunks true h2)
  /\ fst (quickAnalysis query retrievedChunks h1)
     = fst (quickAnalysis query retrievedChunks h2)
  /\ (exists verdict,
        fst (quickAnalysis query retrievedChunks h1) = inr verdict)
  /\ snd (analyze E1 query retrievedChunks true h1) = h1
  /\ snd (analyze E2 query retrievedChunks true h2) = h2.
Proof.
  unfold analyze, quickAnalysis, ret; simpl.
  repeat split; try reflexivity. eexists; reflexivity.
Qed.

End Heuristic.

(** ** Reasoning about [M] *)

Section MonadFacts.
Context {A B : Type}.

Lemma bind_returns (m : M A) (k : A -> M B) (h h' : History) (b : B) :
  bind m k h = (inr b, h') ->
  exists a h1, m h = (inr a, h1) /\ k a h1 = (inr b, h').
Proof.
  unfold bind. destruct (m h) as [[e|a] h1]; intros H.
  - discriminate.
  - now exists a, h1.
Qed.

Lemma bind_step (m : M A) (k : A -> M B) (h h1 : History) (a : A) :
  m h = (inr a, h1) -> bind m k h = k a h1.
Proof. unfold bind. now intros ->. Qed.

Lemma bind_throws (m : M A) (k : A -> M B) (h h1 : History) (e : Error) :
  m h = (inl e, h1) -> bind m k h = (inl e, h1).
Proof. unfold bind. now intros ->. Qed.

Lemma try_catch_returning (m : M A) (handler : Error -> A) (h : History) :
  exists a h', try_catch m (fun error => ret (handler error)) h = (inr a, h').
Proof.
  unfold try_catch, ret. destruct (m h) as [[e|a] h'].
  - now exists (handler e), h'.
  - now exists a, h'.
Qed.

Lemma rethrowing_id (m : M A) (h : History) : Retriever.rethrowing m h = m h.
Proof.
  unfold Retriever.rethrowing, try_catch, throw.
  now destruct (m h) as [[e|a] h'].
Qed.

End MonadFacts.

(** ** Properties of the LLM-based strategy *)

Section Analyzer.
Import QueryAnalyzer.
Variable E : Env.

Lemma get_any_field (v x : jsval) (key key' : string) :
  JsValue.get v key = Some x -> exists y, JsValue.get v key' = Some y.
Proof.
  destruct v; simpl; try discriminate; intros _; eauto.
  destruct (JsValue.lookup key' props); eauto.
Qed.

Lemma field_returns (v x : jsval) (key : string) (h h' : History) :
  field v key h = (inr x, h') -> JsValue.get v key = Some x /\ h' = h.
Proof.
  unfold field, defined. destruct (JsValue.get v key) as [y|]; unfold ret, throw.
  - intros H. injection H as -> ->. now split.
  - discriminate.
Qed.

Lemma display_analysis_returns (v : jsval) (h h' : History) :
  display_analysis v h = (inr tt, h') ->
  exists x, JsValue.get v "relevance_score" = Some x.
Proof.
  unfold display_analysis. intros H.
  apply bind_returns in H as (x & h1 & H & _).
  apply field_returns in H as [H _]. now exists x.
Qed.

(** The analyzer never throws, and what it returns has fields to read. *)
Lemma evaluateRetrievalQuality_returns (query : string)
  (retrievedChunks : list Chunk) (h : History) :
  exists analysis h' suggested,
    evaluateRetrievalQuality E query retrievedChunks h = (inr analysis, h')
    /\ JsValue.get analysis "suggested_search_query" = Some suggested.
Proof.
  unfold evaluateRetrievalQuality, try_catch.
  match goal with |- context [match ?body h with _ => _ end] =>
    destruct (body h) as [[e|analysis] h'] eqn:Hbody end.
  - exists default_analysis, h', JNull. now split.
  - repeat (apply bind_returns in Hbody as (? & ? & ? & Hbody)).
    unfold ret in Hbody. injection Hbody as -> ->.
    match goal with Hshown : display_analysis _ _ = (inr ?u, _) |- _ =>
      destruct u; apply display_analysis_returns in Hshown;
      destruct Hshown as [score Hscore] end.
    destruct (get_any_field _ _ _ "suggested_search_query" Hscore) as [y Hy].
    now exists analysis, h', y.
Qed.

Lemma analyze_returns (query : string) (retrievedChunks : list Chunk)
  (useQuickAnalysis : bool) (h : History) :
  exists analysis h' suggested,
    analyze E query retrievedChunks useQuickAnalysis h = (inr analysis, h')
    /\ JsValue.get analysis "suggested_search_query" = Some suggested.
Proof.
  unfold analyze. destruct useQuickAnalysis.
  - unfold quickAnalysis, ret. eexists; eexists; eexists.
    split; [reflexivity|]. simpl. reflexivity.
  - apply evaluateRetrievalQuality_returns.
Qed.

(** C3.  Whenever the completion call fails or its completion cannot be
    parsed as JSON, [evaluateRetrievalQuality] does not throw: it returns
    the object of its [catch] branch, which is the safe default verdict
    (relevanceScore 5, isSufficient true, requiresWebSearch false,
    suggestedQuery null). *)
Theorem evaluateRetrievalQuality_safe_default (query : string)
  (retrievedChunks : list Chunk) (h : History) :
  (forall previews,
      previews_from 0 retrievedChunks = Some previews ->
      completion_unusable E h
        (analysisPrompt query (JsString.join (JsString.nl +++ JsString.nl) previews))) ->
  exists h' verdict,
    evaluateRetrievalQuality E query retrievedChunks h
    = (inr default_analysis, h')
    /\ Verdict.of_object default_analysis = Some verdict
    /\ Verdict.safe_default verdict.
Proof.
  intros Hfail.
  assert (Hdefault : exists verdict,
             Verdict.of_object default_analysis = Some verdict
             /\ Verdict.safe_default verdict).
  { eexists. split; [reflexivity|]. now repeat split. }
  destruct Hdefault as (verdict & Hv & Hsafe).
  enough (exists h', evaluateRetrievalQuality E query retrievedChunks h
                     = (inr default_analysis, h')) as [h' H]
    by (exists h', verdict; auto).
  unfold evaluateRetrievalQuality, try_catch, bind, defined.
  destruct (previews_from 0 retrievedChunks) as [previews|].
  - specialize (Hfail previews eq_refl).
    unfold ret, call, throw.
    destruct Hfail as [[error Hcall] | (response & text & Hcall & Htext & Hparse)];
      rewrite Hcall.
    + eexists; reflexivity.
    + unfold first_content, bind, defined, ret, throw.
      unfold completion in Htext.
      destruct (Chat.choices response) as [|choice rest]; simpl.
      * discriminate.
      * rewrite Htext, Hparse. eexists; reflexivity.
  - unfold throw, ret. eexists; reflexivity.
Qed.

End Analyzer.

(** ** What the web searcher finds *)

Section WebFacts.
Import WebSearcher.
Variable E : Env.

Lemma performSearch_eq (query : jsval) (numResults : nat) (h : History) :
  performSearch E query numResults h
  = (inr (organic_found E query numResults h), h ++ performSearch_calls query).
Proof.
  unfold performSearch, organic_found, performSearch_calls, try_catch, bind,
    log_value, call, ret, throw.
  destruct (JsValue.interpolation_throws query).
  - now rewrite app_nil_r.
  - destruct (google_search E h query) as [e|response]; [reflexivity|].
    now destruct (map organic_result _).
Qed.

Lemma getKnowledgeGraph_eq (query : jsval) (h : History) :
  getKnowledgeGraph E query h
  = (inr (knowledge_found E query h), h ++ [GoogleSearch query]).
Proof.
  unfold getKnowledgeGraph, knowledge_found, try_catch, bind, call, ret.
  destruct (google_search E h query) as [e|response]; [reflexivity|].
  now destruct (Google.knowledge_panel response).
Qed.

Lemma getFeaturedSnippet_eq (query : jsval) (h : History) :
  getFeaturedSnippet E query h
  = (inr (featured_found E query h), h ++ [GoogleSearch query]).
Proof.
  unfold getFeaturedSnippet, featured_found, try_catch, bind, call, ret.
  destruct (google_search E h query) as [e|response]; [reflexivity|].
  now destruct (Google.featured_snippet response).
Qed.

Lemma getSearchContext_eq (query : jsval) (numResults : nat) (h : History) :
  getSearchContext E query numResults h
  = (inr (assemble (found E query numResults h)), h ++ web_calls query).
Proof.
  unfold getSearchContext, comprehensiveSearch, bind.
  rewrite performSearch_eq; cbv beta iota.
  rewrite getKnowledgeGraph_eq; cbv beta iota.
  rewrite getFeaturedSnippet_eq; cbv beta iota.
  unfold ret, found, web_calls.
  now rewrite <- !app_assoc.
Qed.

End WebFacts.

(** ** The retrieval step and the fusion step *)

Section RetrieverFacts.
Import Retriever.
Variable E : Env.

Lemma searchSimilarDocuments_cases (this : t) (query : string) (topK : nat)
  (h : History) :
  match searchSimilarDocuments E this query topK h with
  | (inl error, _) => retrieval_failure E this query topK h error
  | (inr rows, h') =>
      exists queryEmbedding,
        table_search E (embedded this query h) queryEmbedding topK = inr rows
        /\ forallb has_text rows = true
        /\ h' = embedded this query h ++ [VectorSearch queryEmbedding topK]
  end.
Proof.
  unfold searchSimilarDocuments, generateQueryEmbedding.
  rewrite rethrowing_id. unfold bind at 1. unfold call at 1.
  destruct (lancedb_connect E h (dbPath this)) as [e|[]] eqn:Hconnect.
  { now apply connect_fails. }
  unfold bind at 1. unfold call at 1. fold (connected this h).
  destruct (db_openTable E (connected this h) "documents") as [e|[]] eqn:Hopen.
  { now apply openTable_fails. }
  fold (opened this h). unfold bind at 1. rewrite rethrowing_id.
  unfold bind at 1. unfold call at 1.
  destruct (embeddings_create E (opened this h) query) as [e|response] eqn:Hembed.
  { now apply embedding_fails. }
  fold (embedded this query h). unfold bind at 1, defined.
  destruct (Embeddings.data response) as [|item items] eqn:Hdata; simpl.
  { unfold throw. now apply embedding_missing with response. }
  unfold ret at 1. unfold bind at 1, call at 1.
  destruct (table_search E (embedded this query h) (Embeddings.embedding item) topK)
    as [e|rows] eqn:Hsearch.
  { now apply search_fails with (Embeddings.embedding item). }
  unfold bind, display_results. fold has_text.
  destruct (forallb has_text rows) eqn:Hrows; unfold ret, throw.
  - exists (Embeddings.embedding item). auto.
  - now apply row_without_text with rows (Embeddings.embedding item).
Qed.

Lemma retrieveContext_throws (this : t) (query : string) (topK : nat)
  (h h1 : History) (error : Error) :
  searchSimilarDocuments E this query topK h = (inl error, h1) ->
  retrieveContext E this query topK h = (inl error, h1).
Proof. intros H. unfold retrieveContext. now apply bind_throws. Qed.

Lemma retrieveContext_disabled (this : t) (query : string) (topK : nat)
  (h h1 : History) (localResults : list Chunk) :
  enableCorrectiveRAG this = false ->
  searchSimilarDocuments E this query topK h = (inr localResults, h1) ->
  retrieveContext E this query topK h
  = (inr {| context := local_text localResults;
            localContext := None;
            webContext := None;
            chunks := localResults;
            webResults := None;
            analysis := None |}, h1).
Proof.
  intros Hoff H. unfold retrieveContext.
  rewrite (bind_step _ _ _ _ _ H), Hoff. reflexivity.
Qed.

(** The fusion step, once the local chunks and the verdict are there. *)
Lemma retrieveContext_enabled (this : t) (query : string) (topK : nat)
  (h h1 h2 : History) (localResults : list Chunk) (verdict suggested : jsval) :
  enableCorrectiveRAG this = true ->
  searchSimilarDocuments E this query topK h = (inr localResults, h1) ->
  QueryAnalyzer.analyze E query localResults (useQuickAnalysis this) h1
  = (inr verdict, h2) ->
  JsValue.get verdict "suggested_search_query" = Some suggested ->
  let web :=
    WebSearcher.assemble (found E (search_query suggested query) 3 h2) in
  retrieveContext E this query topK h
  = (inr {| context := combine (local_text localResults) web;
            localContext := Some (local_text localResults);
            webContext := Some web;
            chunks := localResults;
            webResults :=
              Some {| searchQuery := search_query suggested query;
                      webResults_context := web |};
            analysis := Some verdict |},
     h2 ++ web_calls (search_query suggested query)).
Proof.
  intros Hon Hlocal Hverdict Hfield web. unfold retrieveContext.
  rewrite (bind_step _ _ _ _ _ Hlocal), Hon. cbn [negb].
  rewrite (bind_step _ _ _ _ _ Hverdict).
  unfold bind, QueryAnalyzer.field, defined. rewrite Hfield. unfold ret at 1.
  fold (search_query suggested query).
  rewrite getSearchContext_eq. reflexivity.
Qed.

(** With corrective RAG enabled, a retrieval that succeeds always ends in
    a fused context. *)
Lemma retrieveContext_fuses (this : t) (query : string) (topK : nat)
  (h h1 : History) (localResults : list Chunk) :
  enableCorrectiveRAG this = true ->
  searchSimilarDocuments E this query topK h = (inr localResults, h1) ->
  exists verdict suggested h2,
    QueryAnalyzer.analyze E query localResults (useQuickAnalysis this) h1
    = (inr verdict, h2)
    /\ JsValue.get verdict "suggested_search_query" = Some suggested
    /\ retrieveContext E this query topK h
       = (inr {| context :=
                   combine (local_text localResults)
                     (WebSearcher.assemble
                        (found E (search_query suggested query) 3 h2));
                 localContext := Some (local_text localResults);
                 webContext :=
                   Some (WebSearcher.assemble
                           (found E (search_query suggested query) 3 h2));
                 chunks := localResults;
                 webResults :=
                   Some {| searchQuery := search_query suggested query;
                           webResults_context :=
                             WebSearcher.assemble
                               (found E (search_query suggested query) 3 h2) |};
                 analysis := Some verdict |},
          h2 ++ web_calls (search_query suggested query)).
Proof.
  intros Hon Hlocal.
  destruct (analyze_returns E query localResults (useQuickAnalysis this) h1)
    as (verdict & h2 & suggested & Hverdict & Hfield).
  exists verdict, suggested, h2. repeat split; trivial.
  now apply retrieveContext_enabled with h1.
Qed.

End RetrieverFacts.

(** ** Properties of the fusion step *)

Section Fusion.
Import Retriever.

Lemma combine_headers (localContext webContext : string) :
  headers_in_order (combine localContext webContext).
Proof.
  exists "=== ",
    (" ===" +++ JsString.nl +++ JsString.nl +++ localContext
     +++ JsString.nl +++ JsString.nl +++ "=== "),
    (" (Additional Information) ===" +++ JsString.nl +++ JsString.nl
     +++ webContext).
  unfold combine, local_header, web_header. simpl.
  rewrite !append_assoc. reflexivity.
Qed.

Lemma web_calls_search (query : jsval) :
  In (GoogleSearch query) (web_calls query)
  /\ Forall (fun event => event = GoogleSearch query) (web_calls query).
Proof.
  unfold web_calls, performSearch_calls.
  destruct (JsValue.interpolation_throws query); simpl; split; auto.
Qed.

Lemma verdict_field (E : Env) (query : string) (localResults : list Chunk)
  (quick : bool) (h1 h2 : History) (verdict : jsval) :
  QueryAnalyzer.analyze E query localResults quick h1 = (inr verdict, h2) ->
  exists suggested,
    JsValue.get verdict "suggested_search_query" = Some suggested.
Proof.
  intros H.
  destruct (analyze_returns E query localResults quick h1)
    as (v & h' & suggested & Hv & Hfield).
  rewrite H in Hv. injection Hv as <- <-. now exists suggested.
Qed.

(** C2.  With corrective RAG enabled, for every query, every list of local
    chunks and every verdict of the analyzer (whatever its
    [requires_web_search]), [retrieveContext] calls the web search and
    returns a context in which the header LOCAL DOCUMENT CONTEXT is
    followed later by the header WEB SEARCH CONTEXT. *)
Theorem fusion_always_searches_web (E : Env) (this : t) (query : string)
  (topK : nat) (h h1 h2 : History) (localResults : list Chunk)
  (verdict : jsval) :
  enableCorrectiveRAG this = true ->
  searchSimilarDocuments E this query topK h = (inr localResults, h1) ->
  QueryAnalyzer.analyze E query localResults (useQuickAnalysis this) h1
  = (inr verdict, h2) ->
  exists fused searched,
    retrieveContext E this query topK h
    = (inr fused, h2 ++ web_calls searched)
    /\ In (GoogleSearch searched) (web_calls searched)
    /\ analysis fused = Some verdict
    /\ chunks fused = localResults
    /\ headers_in_order (context fused).
Proof.
  intros Hon Hlocal Hverdict.
  destruct (verdict_field _ _ _ _ _ _ _ Hverdict) as [suggested Hfield].
  pose proof (retrieveContext_enabled E this query topK h h1 h2 localResults
                verdict suggested Hon Hlocal Hverdict Hfield) as Hrun.
  cbv zeta in Hrun.
  eexists; exists (search_query suggested query).
  split; [exact Hrun|]. simpl.
  repeat split; trivial.
  - apply web_calls_search.
  - apply combine_headers.
Qed.



(** C5, as amended.  For every verdict, the query passed to the web search
    is the verdict's [suggested_search_query] when that value is truthy (a
    string that is not empty), and the original user query otherwise (when
    it is null, missing or the empty string): every call of the web search
    in the fusion step carries this query. *)
Theorem search_query_fallback (E : Env) (this : t) (query : string)
  (topK : nat) (h h1 h2 : History) (localResults : list Chunk)
  (verdict suggested : jsval) :
  enableCorrectiveRAG this = true ->
  searchSimilarDocuments E this query topK h = (inr localResults, h1) ->
  QueryAnalyzer.analyze E query localResults (useQuickAnalysis this) h1
  = (inr verdict, h2) ->
  JsValue.get verdict "suggested_search_query" = Some suggested ->
  let searched :=
    if JsValue.truthy suggested then suggested else JStr query in
  exists fused calls,
    retrieveContext E this query topK h = (inr fused, h2 ++ calls)
    /\ option_map searchQuery (webResults fused) = Some searched
    /\ In (GoogleSearch searched) calls
    /\ Forall (fun event => event = GoogleSearch searched) calls.
Proof.
  intros Hon Hlocal Hverdict Hfield searched.
  pose proof (retrieveContext_enabled E this query topK h h1 h2 localResults
                verdict suggested Hon Hlocal Hverdict Hfield) as Hrun.
  cbv zeta in Hrun.
  eexists; exists (web_calls searched).
  split; [exact Hrun|]. simpl.
  split; [reflexivity|]. apply web_calls_search.
Qed.

(** C10.  When the verdict's [suggested_search_query] is the empty string,
    the fusion step searches the web for the original user query; and the
    query it searches for is never the empty string when the user query is
    not empty. *)
Theorem empty_suggestion_falls_back (E : Env) (this : t) (query : string)
  (topK : nat) (h h1 h2 : History) (localResults : list Chunk)
  (verdict : jsval) :
  enableCorrectiveRAG this = true ->
  searchSimilarDocuments E this query topK h = (inr localResults, h1) ->
  QueryAnalyzer.analyze E query localResults (useQuickAnalysis this) h1
  = (inr verdict, h2) ->
  exists fused searched,
    retrieveContext E this query topK h
    = (inr fused, h2 ++ web_calls searched)
    /\ option_map searchQuery (webResults fused) = Some searched
    /\ Forall (fun event => event = GoogleSearch searched) (web_calls searched)
    /\ (JsValue.get verdict "suggested_search_query" = Some (JStr EmptyString)
        -> searched = JStr query)
    /\ (query <> EmptyString -> searched <> JStr EmptyString).
Proof.
  intros Hon Hlocal Hverdict.
  destruct (verdict_field _ _ _ _ _ _ _ Hverdict) as [suggested Hfield].
  pose proof (retrieveContext_enabled E this query topK h h1 h2 localResults
                verdict suggested Hon Hlocal Hverdict Hfield) as Hrun.
  cbv zeta in Hrun.
  eexists; exists (search_query suggested query).
  split; [exact Hrun|]. simpl.
  split; [reflexivity|]. split; [apply web_calls_search|]. split.
  - intros Hempty. rewrite Hfield in Hempty. injection Hempty as ->.
    reflexivity.
  - intros Hquery. unfold search_query, JsValue.or.
    destruct (JsValue.truthy suggested) eqn:Htruthy.
    + intros ->. discriminate.
    + intros Heq. injection Heq as Heq. contradiction.
Qed.

(** C6.  Only a failure of the retrieval step propagates out of
    [retrieveContext].  If [searchSimilarDocuments] throws, the same error
    reaches the caller, and it is a retrieval failure; if it returns, then
    [retrieveContext] returns a context: the local text when corrective
    RAG is off, and the fused context otherwise.  The analyzer and the web
    searcher never throw. *)
Theorem only_retrieval_failures_propagate (E : Env) (this : t)
  (query : string) (topK : nat) (h : History) :
  match searchSimilarDocuments E this query topK h with
  | (inl error, h1) =>
      retrieveContext E this query topK h = (inl error, h1)
      /\ retrieval_failure E this query topK h error
  | (inr localResults, h1) =>
      exists fused h',
        retrieveContext E this query topK h = (inr fused, h')
        /\ chunks fused = localResults
        /\ (if enableCorrectiveRAG this
            then exists web,
                webContext fused = Some web
                /\ context fused = combine (local_text localResults) web
            else context fused = local_text localResults)
  end
  /\ (forall q retrievedChunks quick g,
        exists verdict g',
          QueryAnalyzer.analyze E q retrievedChunks quick g
          = (inr verdict, g'))
  /\ (forall searched numResults g,
        exists web g',
          WebSearcher.getSearchContext E searched numResults g
          = (inr web, g')).
Proof.
  split; [|split].
  - pose proof (searchSimilarDocuments_cases E this query topK h) as Hcases.
    destruct (searchSimilarDocuments E this query topK h)
      as [[error|localResults] h1] eqn:Hlocal.
    + split; [now apply retrieveContext_throws | exact Hcases].
    + destruct (enableCorrectiveRAG this) eqn:Hon.
      * destruct (retrieveContext_fuses E this query topK h h1 localResults
                    Hon Hlocal) as (verdict & suggested & h2 & _ & _ & Hrun).
        eexists; eexists. split; [exact Hrun|]. simpl.
        split; [reflexivity|]. eexists. split; reflexivity.
      * eexists; eexists.
        split; [exact (retrieveContext_disabled E this query topK h h1
                         localResults Hon Hlocal)|].
        simpl. split; reflexivity.
  - intros q retrievedChunks quick g.
    destruct (analyze_returns E q retrievedChunks quick g)
      as (verdict & g' & _ & Hv & _).
    now exists verdict, g'.
  - intros searched numResults g. rewrite getSearchContext_eq.
    eexists; eexists; reflexivity.
Qed.

End Fusion.

(** ** The layout of the fused context *)

Section Layout.
Import JsString WebSearcher.

Lemma result_text_source (result : WebResult) (idx : nat) :
  snippet result = description result ->
  result_text result idx = web_source (idx + 1) result.
Proof.
  intros Hsnippet. unfold result_text, web_source.
  rewrite Hsnippet, !append_assoc. reflexivity.
Qed.

Lemma mapi_numbered (results : list WebResult) (idx : nat) :
  Forall (fun result => snippet result = description result) results ->
  mapi_from idx result_text results
  = map (fun p => web_source (fst p) (snd p))
        (List.combine (seq (idx + 1) (List.length results)) results).
Proof.
  intros Hall. revert idx.
  induction Hall as [|result rest Hsnippet _ IH]; intros idx; simpl.
  - reflexivity.
  - rewrite (result_text_source _ _ Hsnippet), (IH (S idx)). reflexivity.
Qed.

Lemma assemble_layout (found : Comprehensive) :
  Forall (fun result => snippet result = description result) (results found) ->
  assemble found = web_layout found.
Proof.
  intros Hall. unfold assemble, web_layout, mapi.
  rewrite (mapi_numbered _ 0 Hall). fold (numbered (results found)).
  destruct (featuredSnippet found) as [[|c1 s1]|];
    destruct (knowledgeGraph found) as [[|c2 s2]|];
    destruct (results found) as [|result rest];
    cbn [present or_empty featured_block knowledge_block results_block
         List.length Nat.ltb Nat.leb];
    rewrite ?append_assoc, ?append_empty_r; reflexivity.
Qed.

Lemma organic_found_snippets (E : Env) (query : jsval) (numResults : nat)
  (h : History) :
  Forall (fun result => snippet result = description result)
    (organic_found E query numResults h).
Proof.
  unfold organic_found.
  destruct (JsValue.interpolation_throws query); [constructor|].
  destruct (google_search E h query) as [e|response]; [constructor|].
  apply Forall_forall. intros result Hin.
  apply in_map_iff in Hin as (organic & <- & _). reflexivity.
Qed.

Lemma local_text_join (rows : list Chunk) :
  forallb has_text rows = true ->
  exists texts,
    map text rows = map Some texts
    /\ Retriever.local_text rows = join (nl +++ nl) texts.
Proof.
  intros Hrows.
  enough (exists texts, map text rows = map Some texts
                        /\ map (fun result => match text result with
                                              | Some t => t
                                              | None => EmptyString
                                              end) rows = texts)
    as (texts & Hmap & Htexts).
  { exists texts. split; trivial. unfold Retriever.local_text.
    now rewrite Htexts. }
  induction rows as [|row rest IH]; simpl in *.
  - now exists [].
  - apply andb_true_iff in Hrows as [Hrow Hrest].
    destruct (IH Hrest) as (texts & Hmap & Htexts).
    unfold has_text in Hrow. destruct (text row) as [t|]; [|discriminate].
    exists (t :: texts). simpl. now rewrite Hmap, Htexts.
Qed.

(** C7.  The web section is the featured snippet (if present), then the
    knowledge panel (if present), then the web results numbered from 1,
    each as [[Web Source i: title]], [URL: url], [Content: snippet], joined
    by a separator; the local section is the local chunk texts joined by
    blank lines in the order the retrieval returned them, and the web
    section is placed beneath it. *)
Theorem fused_context_layout (E : Env) (this : Retriever.t) (query : string)
  (topK : nat) (h h1 : History) (localResults : list Chunk) :
  Retriever.enableCorrectiveRAG this = true ->
  Retriever.searchSimilarDocuments E this query topK h
  = (inr localResults, h1) ->
  exists fused h' searched h2 texts,
    Retriever.retrieveContext E this query topK h = (inr fused, h')
    /\ Retriever.chunks fused = localResults
    /\ map text localResults = map Some texts
    /\ Retriever.localContext fused = Some (join (nl +++ nl) texts)
    /\ Retriever.webContext fused
       = Some (web_layout (found E searched 3 h2))
    /\ Retriever.context fused
       = fused_layout texts (web_layout (found E searched 3 h2)).
Proof.
  intros Hon Hlocal.
  destruct (retrieveContext_fuses E this query topK h h1 localResults
              Hon Hlocal) as (verdict & suggested & h2 & _ & _ & Hrun).
  pose proof (searchSimilarDocuments_cases E this query topK h) as Hcases.
  rewrite Hlocal in Hcases. destruct Hcases as (v & _ & Hrows & _).
  destruct (local_text_join localResults Hrows) as (texts & Hmap & Htexts).
  rewrite (assemble_layout (found E (search_query suggested query) 3 h2))
    in Hrun by apply organic_found_snippets.
  rewrite Htexts in Hrun.
  eexists; eexists; exists (search_query suggested query), h2, texts.
  split; [exact Hrun|]. simpl. repeat split; trivial.
Qed.

End Layout.

(** ** The ranking of the local retriever *)

Section Ranking.
Import Retriever.

(** C8.  Over an index of [N] chunks that honours its ordered-search
    contract, and for [1 <= topK <= N], [searchSimilarDocuments] returns
    exactly [topK] chunks sorted by non-decreasing distance, unless the
    retrieval is unavailable. *)
Theorem searchSimilarDocuments_ranked (E : Env) (N : nat) (this : t)
  (query : string) (topK : nat) (h : History) :
  honours_search_contract E N ->
  1 <= topK <= N ->
  match searchSimilarDocuments E this query topK h with
  | (inr rows, _) =>
      List.length rows = topK /\ Sorted closer_or_equal rows
  | (inl error, _) => retrieval_unavailable E this query topK h error
  end.
Proof.
  intros Hcontract Hk.
  pose proof (searchSimilarDocuments_cases E this query topK h) as Hcases.
  destruct (searchSimilarDocuments E this query topK h)
    as [[error|rows] h1].
  - unfold retrieval_unavailable.
    destruct Hcases as [e H | e H | e H | response H Hdata | e v H
                       | rows v H Hrows]; eauto 8.
    apply Hcontract in H as (_ & _ & Htext). congruence.
  - destruct Hcases as (v & Hsearch & _).
    apply Hcontract in Hsearch as (Hlen & Hsorted & _).
    split; [lia | exact Hsorted].
Qed.

End Ranking.

Section Witnesses.
Import JsString Retriever SampleRuns.

Lemma online_retrieval :
  searchSimilarDocuments online Sample.retriever "hello" 2 []
  = (inr local2, retrieved online).
Proof. vm_compute. reflexivity. Qed.

Lemma online_analysis :
  QueryAnalyzer.analyze online "hello" local2
    (useQuickAnalysis Sample.retriever) (retrieved online)
  = (inr empty_suggestion_verdict, analysed online).
Proof. vm_compute. reflexivity. Qed.

Lemma fusion_always_searches_web_witness :
  exists fused searched,
    retrieveContext degraded Sample.retriever "hello" 2 []
    = (inr fused, analysed degraded ++ web_calls searched)
    /\ In (GoogleSearch searched) (web_calls searched)
    /\ analysis fused = Some QueryAnalyzer.default_analysis
    /\ chunks fused = local2
    /\ headers_in_order (context fused).
Proof.
  apply (fusion_always_searches_web degraded Sample.retriever "hello" 2 []
           (retrieved degraded)).
  - reflexivity.
  - vm_compute. reflexivity.
  - vm_compute. reflexivity.
Defined.

Lemma evaluateRetrievalQuality_safe_default_witness :
  JSON_parse degraded (QueryAnalyzer.json_text Sample.refusal) = None
  /\ exists h' verdict,
       QueryAnalyzer.evaluateRetrievalQuality degraded "hello" Sample.rows []
       = (inr QueryAnalyzer.default_analysis, h')
       /\ Verdict.of_object QueryAnalyzer.default_analysis = Some verdict
       /\ Verdict.safe_default verdict.
Proof.
  split; [vm_compute; reflexivity|].
  apply (evaluateRetrievalQuality_safe_default degraded "hello" Sample.rows []).
  intros previews _. right.
  exists (Chat.mkResponse
            [Chat.mkChoice (Chat.mkMessage (Some Sample.refusal))]),
    Sample.refusal.
  split; [reflexivity|]. split; [reflexivity|]. vm_compute. reflexivity.
Defined.


(** C5, as the specification states it, fails: the model suggests the
    empty string, the field is present, and the web is searched for the
    user's query [hello] instead. *)
Lemma suggestion_not_always_passed : ~ passes_suggestion_when_present.
Proof.
  intros Hclaim.
  destruct (Hclaim online Sample.retriever "hello" 2 [] (retrieved online)
              (analysed online) local2 empty_suggestion_verdict EmptyString
              eq_refl online_retrieval online_analysis eq_refl)
    as (fused & calls & Hrun & Hquery).
  pose proof (retrieveContext_enabled online Sample.retriever "hello" 2 []
                (retrieved online) (analysed online) local2
                empty_suggestion_verdict (JStr EmptyString) eq_refl
                online_retrieval online_analysis eq_refl) as Hcode.
  cbv zeta in Hcode. rewrite Hcode in Hrun.
  injection Hrun as <- _. simpl in Hquery. discriminate.
Qed.

Lemma search_query_fallback_witness :
  exists fused calls,
    retrieveContext online Sample.retriever "hello" 2 []
    = (inr fused, analysed online ++ calls)
    /\ option_map searchQuery (webResults fused) = Some (JStr "hello")
    /\ In (GoogleSearch (JStr "hello")) calls
    /\ Forall (fun event => event = GoogleSearch (JStr "hello")) calls.
Proof.
  apply (search_query_fallback online Sample.retriever "hello" 2 []
           (retrieved online) (analysed online) local2
           empty_suggestion_verdict (JStr EmptyString)).
  - reflexivity.
  - vm_compute. reflexivity.
  - vm_compute. reflexivity.
  - reflexivity.
Defined.

Lemma empty_suggestion_falls_back_witness :
  exists fused searched,
    retrieveContext online Sample.retriever "hello" 2 []
    = (inr fused, analysed online ++ web_calls searched)
    /\ option_map searchQuery (webResults fused) = Some searched
    /\ Forall (fun event => event = GoogleSearch searched) (web_calls searched)
    /\ (JsValue.get empty_suggestion_verdict "suggested_search_query"
        = Some (JStr EmptyString) -> searched = JStr "hello")
    /\ ("hello" <> EmptyString -> searched <> JStr EmptyString).
Proof.
  apply (empty_suggestion_falls_back online Sample.retriever "hello" 2 []
           (retrieved online) (analysed online) local2
           empty_suggestion_verdict).
  - reflexivity.
  - vm_compute. reflexivity.
  - vm_compute. reflexivity.
Defined.

Lemma fused_context_layout_witness :
  exists fused h' searched h2 texts,
    retrieveContext online Sample.retriever "hello" 2 [] = (inr fused, h')
    /\ chunks fused = local2
    /\ map text local2 = map Some texts
    /\ localContext fused = Some (join (nl +++ nl) texts)
    /\ webContext fused = Some (web_layout (found online searched 3 h2))
    /\ context fused
       = fused_layout texts (web_layout (found online searched 3 h2)).
Proof.
  apply (fused_context_layout online Sample.retriever "hello" 2 []
           (retrieved online) local2).
  - reflexivity.
  - vm_compute. reflexivity.
Defined.

Lemma searchSimilarDocuments_ranked_witness :
  1 <= 2 <= 3
  /\ match searchSimilarDocuments online Sample.retriever "hello" 2 [] with
     | (inr rows, _) =>
         List.length rows = 2 /\ Sorted closer_or_equal rows
     | (inl error, _) =>
         retrieval_unavailable online Sample.retriever "hello" 2 [] error
     end.
Proof.
  split; [lia|].
  apply (searchSimilarDocuments_ranked online 3 Sample.retriever "hello" 2 []).
  - intros h v k rows H. simpl in H. injection H as <-.
    destruct k as [|[|[|k]]]; simpl; rewrite ?firstn_nil, ?Nat.min_0_r;
      (split; [reflexivity|]); (split; [|reflexivity]);
      repeat constructor; unfold closer_or_equal, Qle; simpl; lia.
  - lia.
Defined.

End Witnesses.

(** ** The testable properties of the specification on examples *)

Section Examples.
Import SampleRuns.

(** Keyword escalation. *)
Example keyword_escalation (retrievedChunks : list Chunk) :
  exists why,
    fst (QueryAnalyzer.quickAnalysis "What are the latest AI trends in 2025?"
           retrievedChunks [])
    = inr (JObj [ ("relevance_score", JNum 4);
                  ("is_sufficient", JBool false);
                  ("requires_web_search", JBool true);
                  ("reasoning", JStr why);
                  ("suggested_search_query",
                    JStr "What are the latest AI trends in 2025?") ]).
Proof. eexists. reflexivity. Qed.

(** Short-context escalation. *)
Example short_context_escalation :
  total_text_length [mkChunk (Some "Hi there.") None None None] < 100
  /\ exists why,
       fst (QueryAnalyzer.quickAnalysis "hello"
              [mkChunk (Some "Hi there.") None None None] [])
       = inr (JObj [ ("relevance_score", JNum 4);
                     ("is_sufficient", JBool false);
                     ("requires_web_search", JBool true);
                     ("reasoning", JStr why);
                     ("suggested_search_query", JStr "hello") ]).
Proof. split; [vm_compute; lia | eexists; reflexivity]. Qed.

(** Sufficiency default. *)
Example sufficiency_default :
  100 <= total_text_length Sample.rows
  /\ exists why,
       fst (QueryAnalyzer.quickAnalysis "Summarize section 2" Sample.rows [])
       = inr (JObj [ ("relevance_score", JNum 7);
                     ("is_sufficient", JBool true);
                     ("requires_web_search", JBool false);
                     ("reasoning", JStr why);
                     ("suggested_search_query", JNull) ]).
Proof. split; [vm_compute; lia | eexists; vm_compute; reflexivity]. Qed.

(** Analyzer failure safety. *)
Example analyzer_failure_safety :
  fst (QueryAnalyzer.analyze degraded "hello" Sample.rows false [])
  = inr QueryAnalyzer.default_analysis.
Proof. vm_compute. reflexivity. Qed.

End Examples.

(* ================================================================== *)
(** * Further properties of the code *)

(** ** White space, trimming and fenced blocks *)

Section TrimFacts.
Import JsString.

Lemma trimStart_solid (s : string) : starts_solid (trimStart s).
Proof.
  induction s as [|c s IH]; simpl; [exact I|].
  destruct (is_space c) eqn:Hc; [exact IH | exact Hc].
Qed.

Lemma trimStart_id (s : string) : starts_solid s -> trimStart s = s.
Proof. destruct s as [|c s]; simpl; [reflexivity | now intros ->]. Qed.

Lemma trimStart_blank (s : string) : blank s = true -> trimStart s = EmptyString.
Proof.
  induction s as [|c s IH]; simpl; [reflexivity|].
  intros H. apply andb_true_iff in H as [-> Hs]. now apply IH.
Qed.

Lemma trimStart_app (s t : string) :
  t <> EmptyString -> starts_solid t -> trimStart (s +++ t) = trimStart s +++ t.
Proof.
  intros Hne Ht. induction s as [|c s IH]; simpl.
  - now apply trimStart_id.
  - now destruct (is_space c).
Qed.

Lemma trimStart_app_solid (s t : string) :
  blank s = false -> trimStart (s +++ t) = trimStart s +++ t.
Proof.
  induction s as [|c s IH]; simpl; [discriminate|].
  destruct (is_space c); simpl; [exact IH | reflexivity].
Qed.

Lemma trimStart_app_blank (s t : string) :
  blank s = true -> trimStart (s +++ t) = trimStart t.
Proof.
  induction s as [|c s IH]; simpl; [reflexivity|].
  intros H. apply andb_true_iff in H as [-> Hs]. now apply IH.
Qed.

Lemma trimEnd_cons (c : ascii) (s : string) :
  trimEnd (String c s)
  = match trimEnd s with
    | EmptyString => if is_space c then EmptyString else String c EmptyString
    | String d t => String c (String d t)
    end.
Proof. reflexivity. Qed.

Lemma trimEnd_blank (s : string) : blank s = true -> trimEnd s = EmptyString.
Proof.
  induction s as [|c s IH]; [reflexivity|].
  simpl blank. intros H. apply andb_true_iff in H as [Hc Hs].
  now rewrite trimEnd_cons, (IH Hs), Hc.
Qed.

Lemma trimEnd_app_blank (s ws : string) :
  blank ws = true -> trimEnd (s +++ ws) = trimEnd s.
Proof.
  intros H. induction s as [|c s IH].
  - now apply trimEnd_blank.
  - change (String c s +++ ws) with (String c (s +++ ws)).
    now rewrite !trimEnd_cons, IH.
Qed.

Lemma trimEnd_idempotent (s : string) : trimEnd (trimEnd s) = trimEnd s.
Proof.
  induction s as [|c s IH]; [reflexivity|].
  rewrite trimEnd_cons.
  destruct (trimEnd s) as [|d t] eqn:Ht.
  - destruct (is_space c) eqn:Hc; [reflexivity|].
    now rewrite trimEnd_cons, Hc.
  - rewrite trimEnd_cons, IH. reflexivity.
Qed.

Lemma trimEnd_solid (s : string) : starts_solid s -> starts_solid (trimEnd s).
Proof.
  destruct s as [|c s]; [trivial|]. intros Hc. simpl in Hc.
  rewrite trimEnd_cons. destruct (trimEnd s); [now rewrite Hc | exact Hc].
Qed.

Lemma trim_idempotent (s : string) : trim (trim s) = trim s.
Proof.
  unfold trim.
  rewrite (trimStart_id (trimEnd (trimStart s))).
  - apply trimEnd_idempotent.
  - apply trimEnd_solid, trimStart_solid.
Qed.

Lemma trim_app_blank (s ws : string) :
  blank ws = true -> trim (s +++ ws) = trim s.
Proof.
  intros Hws. unfold trim. destruct (blank s) eqn:Hs.
  - rewrite (trimStart_app_blank s ws Hs), (trimStart_blank ws Hws),
      (trimStart_blank s Hs). reflexivity.
  - rewrite (trimStart_app_solid s ws Hs). now apply trimEnd_app_blank.
Qed.

(** No backtick in [s]. *)
Lemma includes_backtick_cons (c : ascii) (s : string) :
  includes (String c s) "`" = Ascii.eqb "`" c || includes s "`".
Proof.
  cbn [includes]. f_equal. cbn [startsWith].
  destruct (Ascii.eqb "`" c); [now destruct s | reflexivity].
Qed.

Lemma includes_backtick_app (s t : string) :
  includes (s +++ t) "`" = includes s "`" || includes t "`".
Proof.
  induction s as [|c s IH].
  - simpl append. now destruct t.
  - change (String c s +++ t) with (String c (s +++ t)).
    now rewrite !includes_backtick_cons, IH, orb_assoc.
Qed.

Lemma blank_no_backtick (ws : string) :
  blank ws = true -> includes ws "`" = false.
Proof.
  induction ws as [|c ws IH]; [reflexivity|].
  simpl blank. intros H. apply andb_true_iff in H as [Hc Hws].
  rewrite includes_backtick_cons, (IH Hws), orb_false_r.
  destruct (Ascii.eqb "`" c) eqn:Heq; [|reflexivity].
  apply Ascii.eqb_eq in Heq. subst c. discriminate.
Qed.

Lemma trimStart_no_backtick (s : string) :
  includes s "`" = false -> includes (trimStart s) "`" = false.
Proof.
  induction s as [|c s IH]; [trivial|].
  intros H. cbn [trimStart]. destruct (is_space c); [|exact H].
  rewrite includes_backtick_cons in H. apply orb_false_iff in H as [_ H].
  now apply IH.
Qed.

Lemma split_fence_unfold (s : string) :
  split_fence s
  = if startsWith s backtick3 then Some (EmptyString, slice 3 s)
    else match s with
         | EmptyString => None
         | String c s' =>
             match split_fence s' with
             | Some (before, after) => Some (String c before, after)
             | None => None
             end
         end.
Proof. destruct s; reflexivity. Qed.

Lemma startsWith_other (c : ascii) (s : string) :
  Ascii.eqb "`" c = false -> startsWith (String c s) backtick3 = false.
Proof. intros H. cbn [startsWith backtick3]. now rewrite H. Qed.

Lemma startsWith_prefix (p rest : string) : startsWith (p +++ rest) p = true.
Proof. apply startsWith_spec. now exists rest. Qed.

Lemma split_fence_none (s : string) :
  includes s "`" = false -> split_fence s = None.
Proof.
  induction s as [|c s IH]; [reflexivity|].
  rewrite includes_backtick_cons. intros H.
  apply orb_false_iff in H as [Hc Hs].
  rewrite split_fence_unfold, (startsWith_other c s Hc), (IH Hs).
  reflexivity.
Qed.

Lemma split_fence_first (pre rest : string) :
  includes pre "`" = false ->
  split_fence (pre +++ "```" +++ rest) = Some (pre, rest).
Proof.
  induction pre as [|c pre IH].
  { intros _. change (EmptyString +++ "```" +++ rest) with (backtick3 +++ rest).
    rewrite split_fence_unfold, (startsWith_prefix backtick3 rest).
    reflexivity. }
  rewrite includes_backtick_cons. intros H.
  apply orb_false_iff in H as [Hc Hpre].
  change (String c pre +++ "```" +++ rest)
    with (String c (pre +++ "```" +++ rest)).
  rewrite split_fence_unfold, (startsWith_other c _ Hc), (IH Hpre).
  reflexivity.
Qed.

(** X1.  A completion that wraps the JSON text in a [```json] fence, with
    any prose before and after the fence and any white space around the
    text, hands [JSON.parse] the same string as the bare text does,
    provided neither the prose before the fence nor the text holds a
    backtick: the trimmed text. *)
Theorem fenced_completion_unwrapped (pre ws1 body ws2 post : string) :
  includes pre "`" = false ->
  includes body "`" = false ->
  blank ws1 = true ->
  blank ws2 = true ->
  QueryAnalyzer.json_text (fenced pre ws1 body ws2 post) = trim body
  /\ QueryAnalyzer.json_text body = trim body.
Proof.
  intros Hpre Hbody Hws1 Hws2. split.
  - unfold QueryAnalyzer.json_text, match_fenced, fenced.
    change (pre +++ "```json" +++ ws1 +++ body +++ ws2 +++ "```" +++ post)
      with (pre +++ "```" +++ "json" +++ ws1 +++ body +++ ws2 +++ "```" +++ post).
    rewrite (split_fence_first pre _ Hpre).
    rewrite (startsWith_prefix "json").
    change (slice 4 ("json" +++ ws1 +++ body +++ ws2 +++ "```" +++ post))
      with (ws1 +++ body +++ ws2 +++ "```" +++ post).
    rewrite (trimStart_app_blank ws1 _ Hws1).
    rewrite <- (append_assoc body ws2).
    rewrite (trimStart_app (body +++ ws2) ("```" +++ post))
      by (discriminate || reflexivity).
    assert (Hplain : includes (trimStart (body +++ ws2)) "`" = false).
    { apply trimStart_no_backtick.
      now rewrite includes_backtick_app, Hbody, (blank_no_backtick ws2 Hws2). }
    rewrite (split_fence_first _ post Hplain).
    fold (trim (body +++ ws2)).
    now rewrite trim_idempotent, trim_app_blank.
  - unfold QueryAnalyzer.json_text, match_fenced.
    now rewrite (split_fence_none body Hbody).
Qed.

End TrimFacts.

(** ** Edge behaviour of the LLM-based strategy *)

Section AnalyzerEdges.
Import QueryAnalyzer.
Variable E : Env.

Lemma log_value_eq (v : jsval) (h : History) :
  log_value v h
  = (if JsValue.interpolation_throws v
     then inl (TypeError "Cannot convert object to primitive value")
     else inr tt, h).
Proof. unfold log_value. now destruct (JsValue.interpolation_throws v). Qed.

Lemma get_null_all (v : jsval) (key key' : string) :
  JsValue.get v key = None -> JsValue.get v key' = None.
Proof.
  destruct v; simpl; try discriminate; try reflexivity.
  destruct (JsValue.lookup key props); discriminate.
Qed.

(** [display_analysis] leaves the history alone, and runs through exactly
    when [displays] says so. *)
Lemma display_analysis_eq (v : jsval) (h : History) :
  exists outcome,
    display_analysis v h = (outcome, h)
    /\ (displays v = true -> outcome = inr tt)
    /\ (displays v = false -> exists error, outcome = inl error).
Proof.
  unfold display_analysis, displays, field, defined, bind.
  destruct (JsValue.get v "relevance_score") as [score|] eqn:Hscore.
  2:{ eexists. split; [reflexivity|]. split; [discriminate | eauto]. }
  destruct (get_any_field v score _ "reasoning" Hscore) as [why ->].
  destruct (get_any_field v score _ "requires_web_search" Hscore) as [web ->].
  destruct (get_any_field v score _ "suggested_search_query" Hscore)
    as [suggested ->].
  destruct (get_any_field v score _ "is_sufficient" Hscore) as [enough ->].
  unfold ret at 1. rewrite log_value_eq.
  destruct (JsValue.interpolation_throws score).
  { eexists. split; [reflexivity|]. split; [discriminate | eauto]. }
  unfold ret at 1 2 3. rewrite log_value_eq.
  destruct (JsValue.interpolation_throws why).
  { eexists. split; [reflexivity|]. split; [discriminate | eauto]. }
  unfold ret at 1.
  destruct (JsValue.truthy web); simpl.
  2:{ unfold ret. eexists. split; [reflexivity|]. split; [reflexivity|discriminate]. }
  unfold ret at 1.
  destruct (JsValue.truthy suggested); simpl.
  2:{ unfold ret. eexists. split; [reflexivity|]. split; [reflexivity|discriminate]. }
  rewrite log_value_eq.
  destruct (JsValue.interpolation_throws suggested);
    eexists; (split; [reflexivity|]); split;
    (reflexivity || discriminate || eauto).
Qed.

(** The strategy when the completion call answers with a text that
    [JSON.parse] accepts. *)
Lemma evaluateRetrievalQuality_parsed (query : string)
  (retrievedChunks : list Chunk) (h : History) (previews : list string)
  (response : Chat.Response) (text : string) (v : jsval) :
  previews_from 0 retrievedChunks = Some previews ->
  chat_completions_create E h systemContent
    (analysisPrompt query (JsString.join (JsString.nl +++ JsString.nl) previews))
  = inr response ->
  completion response = Some text ->
  JSON_parse E (json_text text) = Some v ->
  evaluateRetrievalQuality E query retrievedChunks h
  = (inr (if displays v then v else default_analysis),
     h ++ [analysis_call query previews]).
Proof.
  intros Hpreviews Hcall Htext Hparse.
  destruct (display_analysis_eq v (h ++ [analysis_call query previews]))
    as (outcome & Hshown & Hyes & Hno).
  unfold completion in Htext.
  destruct (Chat.choices response) as [|choice rest] eqn:Hchoices;
    [discriminate|].
  unfold evaluateRetrievalQuality, try_catch.
  cbv [bind defined call ret throw first_content].
  rewrite Hpreviews; cbv beta iota.
  rewrite Hcall; cbv beta iota.
  rewrite Hchoices; cbv beta iota delta [hd_error].
  rewrite Htext; cbv beta iota.
  rewrite Hparse; cbv beta iota.
  fold (analysis_call query previews). rewrite Hshown.
  destruct (displays v).
  - now rewrite (Hyes eq_refl).
  - destruct (Hno eq_refl) as [error ->]. reflexivity.
Qed.

Lemma previews_from_none (retrievedChunks : list Chunk) (idx : nat) :
  previews_from idx retrievedChunks = None
  <-> forallb has_text retrievedChunks = false.
Proof.
  revert idx. induction retrievedChunks as [|chunk rest IH]; intros idx; simpl.
  - split; discriminate.
  - unfold has_text at 1. destruct (text chunk) as [t|]; simpl.
    + rewrite <- (IH (S idx)).
      destruct (previews_from (S idx) rest); split; congruence.
    + split; reflexivity.
Qed.

(** X2.  If one of the retrieved chunks has no text, the LLM-based strategy
    returns the default verdict of its [catch] branch and never calls the
    language model. *)
Theorem chunk_without_text_skips_the_model (query : string)
  (retrievedChunks : list Chunk) (h : History) :
  forallb has_text retrievedChunks = false ->
  evaluateRetrievalQuality E query retrievedChunks h
  = (inr default_analysis, h).
Proof.
  intros Hmissing. apply (previews_from_none _ 0) in Hmissing.
  unfold evaluateRetrievalQuality, try_catch, bind, defined.
  rewrite Hmissing. reflexivity.
Qed.

(** X3.  A completion that is valid JSON but reads as [null] is treated
    like an analysis failure: after its one call of the language model the
    strategy returns the default verdict. *)
Theorem null_completion_is_a_failure (query : string)
  (retrievedChunks : list Chunk) (h : History) (previews : list string)
  (response : Chat.Response) (text : string) :
  previews_from 0 retrievedChunks = Some previews ->
  chat_completions_create E h systemContent
    (analysisPrompt query (JsString.join (JsString.nl +++ JsString.nl) previews))
  = inr response ->
  completion response = Some text ->
  JSON_parse E (json_text text) = Some JNull ->
  evaluateRetrievalQuality E query retrievedChunks h
  = (inr default_analysis, h ++ [analysis_call query previews]).
Proof.
  intros Hpreviews Hcall Htext Hparse.
  now rewrite (evaluateRetrievalQuality_parsed query retrievedChunks h
                 previews response text JNull Hpreviews Hcall Htext Hparse).
Qed.

Lemma verdict_displays (v : jsval) (verdict : Verdict.t) :
  Verdict.of_object v = Some verdict -> displays v = true.
Proof.
  unfold Verdict.of_object, displays.
  destruct (JsValue.get v "relevance_score") as [[]|]; try discriminate.
  destruct (JsValue.get v "is_sufficient") as [[]|]; try discriminate.
  destruct (JsValue.get v "requires_web_search") as [[]|]; try discriminate.
  destruct (JsValue.get v "reasoning") as [[]|]; try discriminate.
  destruct (JsValue.get v "suggested_search_query") as [[]|];
    try discriminate; intros _; simpl; now rewrite ?andb_false_r.
Qed.

(** X4.  A completion that parses to a verdict object (a number, two
    booleans, a string, and a string or null) is returned exactly as
    parsed, after one call of the language model: the score is not checked
    against the range 0-10 and the two booleans are not reconciled. *)
Theorem parsed_verdict_is_returned_unchanged (query : string)
  (retrievedChunks : list Chunk) (h : History) (previews : list string)
  (response : Chat.Response) (text : string) (v : jsval)
  (verdict : Verdict.t) :
  previews_from 0 retrievedChunks = Some previews ->
  chat_completions_create E h systemContent
    (analysisPrompt query (JsString.join (JsString.nl +++ JsString.nl) previews))
  = inr response ->
  completion response = Some text ->
  JSON_parse E (json_text text) = Some v ->
  Verdict.of_object v = Some verdict ->
  evaluateRetrievalQuality E query retrievedChunks h
  = (inr v, h ++ [analysis_call query previews]).
Proof.
  intros Hpreviews Hcall Htext Hparse Hverdict.
  rewrite (evaluateRetrievalQuality_parsed query retrievedChunks h
             previews response text v Hpreviews Hcall Htext Hparse).
  now rewrite (verdict_displays v verdict Hverdict).
Qed.

Lemma substring0_prefix (n : nat) (t : string) :
  JsString.startsWith t (JsString.substring0 n t) = true
  /\ String.length (JsString.substring0 n t) = Nat.min n (String.length t).
Proof.
  revert t. induction n as [|n IH]; intros t.
  - split; [now destruct t | reflexivity].
  - destruct t as [|c t]; [now split|].
    destruct (IH t) as [Hp Hl]. cbn [JsString.substring0]. split.
    + cbn [JsString.startsWith]. now rewrite Ascii.eqb_refl, Hp.
    + simpl. now rewrite Hl.
Qed.

Lemma previews_from_nth (retrievedChunks : list Chunk) (idx : nat)
  (previews : list string) :
  previews_from idx retrievedChunks = Some previews ->
  List.length previews = List.length retrievedChunks
  /\ forall i chunk,
       nth_error retrievedChunks i = Some chunk ->
       exists t,
         text chunk = Some t
         /\ nth_error previews i
            = Some ("[Chunk " +++ JsString.of_nat (idx + i + 1) +++ "]: "
                    +++ JsString.substring0 200 t +++ "...").
Proof.
  revert idx previews.
  induction retrievedChunks as [|chunk rest IH]; intros idx previews; simpl.
  - intros H. injection H as <-. split; [reflexivity|].
    intros [|i] c H; discriminate.
  - destruct (text chunk) as [t|] eqn:Ht; [|discriminate].
    destruct (previews_from (S idx) rest) as [ps|] eqn:Hps; [|discriminate].
    intros H. injection H as <-.
    destruct (IH (S idx) ps Hps) as [Hlen Hnth]. split; [simpl; now rewrite Hlen|].
    intros [|i] c Hc; simpl in Hc.
    + injection Hc as <-. exists t. split; [exact Ht|].
      simpl. now rewrite Nat.add_0_r.
    + destruct (Hnth i c Hc) as (t' & Ht' & Hp). exists t'. split; [exact Ht'|].
      simpl. replace (idx + S i + 1) with (S idx + i + 1) by lia. exact Hp.
Qed.

(** X5.  The prompt shows every chunk, numbered from 1 in retrieval order,
    by at most its first 200 code units followed by three dots (also when
    the text is shorter than 200). *)
Theorem previews_show_200_units (retrievedChunks : list Chunk)
  (previews : list string) :
  previews_from 0 retrievedChunks = Some previews ->
  List.length previews = List.length retrievedChunks
  /\ forall i chunk,
       nth_error retrievedChunks i = Some chunk ->
       exists t shown,
         text chunk = Some t
         /\ nth_error previews i
            = Some ("[Chunk " +++ JsString.of_nat (i + 1) +++ "]: "
                    +++ shown +++ "...")
         /\ JsString.startsWith t shown = true
         /\ String.length shown = Nat.min 200 (String.length t).
Proof.
  intros H. destruct (previews_from_nth _ _ _ H) as [Hlen Hnth].
  split; [exact Hlen|]. intros i chunk Hchunk.
  destruct (Hnth i chunk Hchunk) as (t & Ht & Hp).
  exists t, (JsString.substring0 200 t). split; [exact Ht|].
  split; [exact Hp|]. apply substring0_prefix.
Qed.

End AnalyzerEdges.

(** ** Further properties of the heuristic strategy *)

Section HeuristicEdges.
Import QueryAnalyzer.

Lemma quickAnalysis_fields (query : string) (retrievedChunks : list Chunk)
  (h : History) :
  web_requested (quickAnalysis query retrievedChunks h)
  = Some (requiresWeb query retrievedChunks)
  /\ suggested_by (quickAnalysis query retrievedChunks h)
     = Some (if requiresWeb query retrievedChunks then JStr query else JNull)
  /\ snd (quickAnalysis query retrievedChunks h) = h.
Proof.
  unfold quickAnalysis, ret. fold (requiresWeb query retrievedChunks).
  repeat split.
Qed.

Lemma total_text_length_app (a b : list Chunk) :
  total_text_length (a ++ b) = total_text_length a + total_text_length b.
Proof.
  unfold total_text_length. rewrite map_app.
  induction (map text_length a) as [|n l IH]; simpl; [reflexivity|].
  rewrite IH. lia.
Qed.

Lemma total_text_length_none (retrievedChunks : list Chunk) :
  (forall chunk, In chunk retrievedChunks -> text chunk = None) ->
  total_text_length retrievedChunks = 0.
Proof.
  unfold total_text_length.
  induction retrievedChunks as [|chunk rest IH]; intros H; simpl.
  - reflexivity.
  - rewrite IH by (intros c Hc; apply H; now right).
    unfold text_length. now rewrite (H chunk (or_introl eq_refl)).
Qed.

(** X6.  When the retrieval brought nothing to read (no chunk at all, or
    only chunks without a text), the heuristic strategy asks for the web
    search, whatever the query, and suggests the query itself. *)
Theorem nothing_retrieved_escalates (query : string)
  (retrievedChunks : list Chunk) (h : History) :
  (forall chunk, In chunk retrievedChunks -> text chunk = None) ->
  web_requested (quickAnalysis query retrievedChunks h) = Some true
  /\ suggested_by (quickAnalysis query retrievedChunks h)
     = Some (JStr query).
Proof.
  intros Hnone.
  destruct (quickAnalysis_fields query retrievedChunks h) as (-> & -> & _).
  assert (Hweb : requiresWeb query retrievedChunks = true).
  { apply requiresWeb_spec. right.
    rewrite (total_text_length_none _ Hnone). lia. }
  now rewrite Hweb.
Qed.

(** X7.  More retrieved text never turns a sufficient verdict into an
    escalation: if the heuristic strategy does not ask for the web search
    on some chunks, it does not ask for it when further chunks are
    added. *)
Theorem more_chunks_never_escalate (query : string)
  (retrievedChunks more : list Chunk) (h h' : History) :
  web_requested (quickAnalysis query retrievedChunks h) = Some false ->
  web_requested (quickAnalysis query (retrievedChunks ++ more) h')
  = Some false.
Proof.
  destruct (quickAnalysis_fields query retrievedChunks h) as (-> & _ & _).
  destruct (quickAnalysis_fields query (retrievedChunks ++ more) h')
    as (-> & _ & _).
  intros H. injection H as H. f_equal.
  destruct (requiresWeb query (retrievedChunks ++ more)) eqn:Hmore;
    [|reflexivity].
  apply requiresWeb_spec in Hmore.
  assert (Hnot : ~ (mentions_web_indicator query
                    \/ total_text_length retrievedChunks < 100)).
  { intros Hyes. apply requiresWeb_spec in Hyes. congruence. }
  exfalso. apply Hnot. destruct Hmore as [Hkey | Hlen]; [now left|].
  right. rewrite total_text_length_app in Hlen. lia.
Qed.

Lemma lower_unit_idempotent (c : ascii) :
  JsString.lower_unit (JsString.lower_unit c) = JsString.lower_unit c.
Proof.
  destruct c as [[] [] [] [] [] [] [] []]; vm_compute; reflexivity.
Qed.

Lemma toLowerCase_idempotent (s : string) :
  JsString.toLowerCase (JsString.toLowerCase s) = JsString.toLowerCase s.
Proof.
  induction s as [|c s IH]; simpl; [reflexivity|].
  now rewrite lower_unit_idempotent, IH.
Qed.

Lemma requiresWeb_lowercase (q1 q2 : string) (a b : list Chunk) :
  JsString.toLowerCase q1 = JsString.toLowerCase q2 ->
  total_text_length a = total_text_length b ->
  requiresWeb q1 a = requiresWeb q2 b.
Proof.
  intros Hq Hlen. unfold requiresWeb.
  now rewrite Hq, !reduce_lengths, Hlen.
Qed.

(** X8.  The decision of the heuristic strategy depends on the query only
    through its lowercase form: two queries that differ in letter case get
    the same [requires_web_search], and so do a query and its lowercase
    form. *)
Theorem letter_case_is_ignored (q1 q2 : string)
  (retrievedChunks : list Chunk) (h h' : History) :
  (JsString.toLowerCase q1 = JsString.toLowerCase q2 ->
   web_requested (quickAnalysis q1 retrievedChunks h)
   = web_requested (quickAnalysis q2 retrievedChunks h'))
  /\ web_requested (quickAnalysis (JsString.toLowerCase q1) retrievedChunks h)
     = web_requested (quickAnalysis q1 retrievedChunks h').
Proof.
  split.
  - intros Hq.
    destruct (quickAnalysis_fields q1 retrievedChunks h) as (-> & _ & _).
    destruct (quickAnalysis_fields q2 retrievedChunks h') as (-> & _ & _).
    f_equal. now apply requiresWeb_lowercase.
  - destruct (quickAnalysis_fields (JsString.toLowerCase q1) retrievedChunks h)
      as (-> & _ & _).
    destruct (quickAnalysis_fields q1 retrievedChunks h') as (-> & _ & _).
    f_equal. apply requiresWeb_lowercase; [|reflexivity].
    apply toLowerCase_idempotent.
Qed.

End HeuristicEdges.

(** ** The calls of a run of [retrieveContext] *)

Section CallSequences.
Import Retriever.
Variable E : Env.

(** The LLM-based strategy makes exactly one call when every chunk has a
    text. *)
Lemma evaluateRetrievalQuality_history (query : string)
  (retrievedChunks : list Chunk) (h : History) (previews : list string) :
  QueryAnalyzer.previews_from 0 retrievedChunks = Some previews ->
  snd (QueryAnalyzer.evaluateRetrievalQuality E query retrievedChunks h)
  = h ++ [analysis_call query previews].
Proof.
  intros Hpreviews.
  unfold QueryAnalyzer.evaluateRetrievalQuality, try_catch.
  cbv [bind defined call ret throw QueryAnalyzer.first_content].
  rewrite Hpreviews; cbv beta iota. fold (analysis_call query previews).
  destruct (chat_completions_create E h _ _) as [error|response];
    [reflexivity|].
  cbv beta iota.
  destruct (Chat.choices response) as [|choice rest];
    cbv beta iota delta [hd_error]; [reflexivity|].
  destruct (Chat.content (Chat.message choice)) as [text|];
    cbv beta iota; [|reflexivity].
  destruct (JSON_parse E (QueryAnalyzer.json_text text)) as [v|];
    cbv beta iota; [|reflexivity].
  destruct (display_analysis_eq v (h ++ [analysis_call query previews]))
    as (outcome & -> & _ & _).
  now destruct outcome.
Qed.

Lemma retrieved_rows_have_previews (this : t) (query : string) (topK : nat)
  (h h1 : History) (localResults : list Chunk) :
  searchSimilarDocuments E this query topK h = (inr localResults, h1) ->
  exists previews,
    QueryAnalyzer.previews_from 0 localResults = Some previews.
Proof.
  intros Hlocal.
  pose proof (searchSimilarDocuments_cases E this query topK h) as Hcases.
  rewrite Hlocal in Hcases. destruct Hcases as (v & _ & Hrows & _).
  destruct (QueryAnalyzer.previews_from 0 localResults) as [previews|] eqn:Hp.
  - now exists previews.
  - apply previews_from_none in Hp. congruence.
Qed.

Lemma setCRAGConfig_dbPath (this : t) (enable quick : option bool) :
  dbPath (setCRAGConfig this enable quick) = dbPath this.
Proof. reflexivity. Qed.

Lemma searchSimilarDocuments_dbPath (this this' : t) (query : string)
  (topK : nat) (h : History) :
  dbPath this' = dbPath this ->
  searchSimilarDocuments E this' query topK h
  = searchSimilarDocuments E this query topK h.
Proof. unfold searchSimilarDocuments. now intros ->. Qed.

(** X9.  After [setCRAGConfig({ enableCorrectiveRAG: false })], whatever
    the other setting, [retrieveContext] is the retrieval step alone: it
    makes the calls of [searchSimilarDocuments] and no other, fails exactly
    when it fails, and otherwise returns the joined chunk texts as the
    context, with [webResults] and [analysis] null. *)
Theorem disabled_crag_is_retrieval_only (this : t) (quick : option bool)
  (query : string) (topK : nat) (h : History) :
  let off := setCRAGConfig this (Some false) quick in
  match searchSimilarDocuments E this query topK h with
  | (inl error, h1) => retrieveContext E off query topK h = (inl error, h1)
  | (inr localResults, h1) =>
      retrieveContext E off query topK h
      = (inr {| context := local_text localResults;
                localContext := None;
                webContext := None;
                chunks := localResults;
                webResults := None;
                analysis := None |}, h1)
  end.
Proof.
  intros off.
  assert (Hsame : searchSimilarDocuments E off query topK h
                  = searchSimilarDocuments E this query topK h)
    by now apply searchSimilarDocuments_dbPath.
  destruct (searchSimilarDocuments E this query topK h)
    as [[error|localResults] h1] eqn:Hlocal.
  - now apply retrieveContext_throws.
  - now apply retrieveContext_disabled.
Qed.

(** X10.  With the heuristic strategy selected, a run of [retrieveContext]
    never calls the language model: after the retrieval it makes the three
    web searches and nothing else, and it always searches the web for the
    user's query as typed. *)
Theorem quick_analysis_run (this : t) (query : string) (topK : nat)
  (h h1 : History) (localResults : list Chunk) :
  enableCorrectiveRAG this = true ->
  useQuickAnalysis this = true ->
  searchSimilarDocuments E this query topK h = (inr localResults, h1) ->
  exists fused,
    retrieveContext E this query topK h
    = (inr fused,
       h1 ++ [GoogleSearch (JStr query); GoogleSearch (JStr query);
              GoogleSearch (JStr query)])
    /\ option_map searchQuery (webResults fused) = Some (JStr query).
Proof.
  intros Hon Hquick Hlocal.
  destruct (quickAnalysis_fields query localResults h1) as (_ & Hs & Hh).
  unfold suggested_by in Hs.
  destruct (QueryAnalyzer.quickAnalysis query localResults h1)
    as [[error|verdict] h2] eqn:Hrun; [discriminate|].
  simpl in Hs, Hh. subst h2.
  assert (Hverdict : QueryAnalyzer.analyze E query localResults
                       (useQuickAnalysis this) h1 = (inr verdict, h1))
    by (rewrite Hquick; exact Hrun).
  pose proof (retrieveContext_enabled E this query topK h h1 h1 localResults
                verdict _ Hon Hlocal Hverdict Hs) as Hfused.
  cbv zeta in Hfused.
  assert (Hquery : search_query
                     (if requiresWeb query localResults
                      then JStr query else JNull) query = JStr query).
  { unfold search_query, JsValue.or.
    destruct (requiresWeb query localResults); [|reflexivity].
    now destruct (JsValue.truthy (JStr query)). }
  rewrite Hquery in Hfused.
  eexists. split; [exact Hfused|]. reflexivity.
Qed.

(** X11.  With the LLM-based strategy (the default), a run of
    [retrieveContext] that gets its chunks makes exactly one call of the
    language model, with the analysis prompt over the previews of those
    chunks, and then the web searches for one search query. *)
Theorem llm_analysis_run (this : t) (query : string) (topK : nat)
  (h h1 : History) (localResults : list Chunk) :
  enableCorrectiveRAG this = true ->
  useQuickAnalysis this = false ->
  searchSimilarDocuments E this query topK h = (inr localResults, h1) ->
  exists fused previews searched,
    QueryAnalyzer.previews_from 0 localResults = Some previews
    /\ retrieveContext E this query topK h
       = (inr fused,
          (h1 ++ [analysis_call query previews]) ++ web_calls searched)
    /\ option_map searchQuery (webResults fused) = Some searched.
Proof.
  intros Hon Hllm Hlocal.
  destruct (retrieved_rows_have_previews this query topK h h1 localResults
              Hlocal) as [previews Hpreviews].
  destruct (retrieveContext_fuses E this query topK h h1 localResults
              Hon Hlocal) as (verdict & suggested & h2 & Hverdict & _ & Hrun).
  assert (Hh2 : h2 = h1 ++ [analysis_call query previews]).
  { rewrite Hllm in Hverdict. unfold QueryAnalyzer.analyze in Hverdict.
    pose proof (evaluateRetrievalQuality_history query localResults h1
                  previews Hpreviews) as Hhist.
    now rewrite Hverdict in Hhist. }
  subst h2.
  eexists; exists previews, (search_query suggested query).
  split; [exact Hpreviews|]. split; [exact Hrun|]. reflexivity.
Qed.

(** X12.  The retrieval step stops at its first failure: when the
    connection fails nothing else is called; when the table cannot be
    opened no embedding is requested; when the embedding call fails the
    index is not searched. *)
Theorem retrieval_stops_at_first_failure (this : t) (query : string)
  (topK : nat) (h : History) :
  (forall error,
      lancedb_connect E h (dbPath this) = inl error ->
      searchSimilarDocuments E this query topK h
      = (inl error, h ++ [LanceConnect (dbPath this)]))
  /\ (forall error,
        lancedb_connect E h (dbPath this) = inr tt ->
        db_openTable E (connected this h) "documents" = inl error ->
        searchSimilarDocuments E this query topK h
        = (inl error,
           h ++ [LanceConnect (dbPath this); OpenTable "documents"]))
  /\ (forall error,
        lancedb_connect E h (dbPath this) = inr tt ->
        db_openTable E (connected this h) "documents" = inr tt ->
        embeddings_create E (opened this h) query = inl error ->
        searchSimilarDocuments E this query topK h
        = (inl error,
           h ++ [LanceConnect (dbPath this); OpenTable "documents";
                 EmbeddingsCreate query])).
Proof.
  unfold searchSimilarDocuments, generateQueryEmbedding.
  rewrite rethrowing_id.
  repeat split; intros error.
  - intros Hconnect. unfold bind, call. now rewrite Hconnect.
  - intros Hconnect Hopen. unfold bind at 1. unfold call at 1.
    rewrite Hconnect. unfold bind at 1. unfold call at 1.
    fold (connected this h). rewrite Hopen. unfold connected.
    now rewrite <- app_assoc.
  - intros Hconnect Hopen Hembed. unfold bind at 1. unfold call at 1.
    rewrite Hconnect. unfold bind at 1. unfold call at 1.
    fold (connected this h). rewrite Hopen. fold (opened this h).
    unfold bind at 1. rewrite rethrowing_id. unfold bind at 1.
    unfold call at 1. rewrite Hembed. unfold opened, connected.
    now rewrite <- !app_assoc.
Qed.

End CallSequences.

(** ** Further properties of the web searcher *)

Section WebEdges.
Import JsString WebSearcher.
Variable E : Env.

(** X13.  [performSearch] never throws and never returns more than
    [numResults] results; each result is marked as coming from google and
    its snippet is its description; when the engine answers, the results
    are its first [numResults] ones in its order, and when it fails there
    is none. *)
Theorem performSearch_bounded (query : jsval) (numResults : nat)
  (h : History) :
  exists hits,
    performSearch E query numResults h
    = (inr hits, h ++ performSearch_calls query)
    /\ List.length hits <= numResults
    /\ Forall (fun result => source result = "google"
                             /\ snippet result = description result) hits
    /\ (forall response,
          JsValue.interpolation_throws query = false ->
          google_search E h query = inr response ->
          hits = map organic_result
                    (firstn numResults (Google.results response)))
    /\ (forall error, google_search E h query = inl error -> hits = []).
Proof.
  exists (organic_found E query numResults h).
  split; [apply performSearch_eq|].
  unfold organic_found.
  destruct (JsValue.interpolation_throws query).
  { repeat split; try constructor; try discriminate; simpl; lia. }
  destruct (google_search E h query) as [e|response].
  { repeat split; try constructor; try discriminate; simpl; lia. }
  split; [|split; [|split]].
  - rewrite length_map, length_firstn. lia.
  - apply Forall_forall. intros result Hin.
    apply in_map_iff in Hin as (organic & <- & _). now split.
  - intros response' _ H. now injection H as <-.
  - discriminate.
Qed.

(** X14.  The web section is the empty string exactly when the searches
    brought no featured snippet text, no knowledge panel text and no
    organic result; in particular an answer without results gives no
    [SEARCH RESULTS] header. *)
Theorem web_section_empty_iff (found : Comprehensive) :
  assemble found = EmptyString
  <-> present (featuredSnippet found) = false
      /\ present (knowledgeGraph found) = false
      /\ results found = [].
Proof.
  unfold assemble.
  destruct (featuredSnippet found) as [[|c1 s1]|];
    destruct (knowledgeGraph found) as [[|c2 s2]|];
    destruct (results found) as [|result rest]; simpl;
    split; intros H; try discriminate; try (now repeat split);
    destruct H as (H1 & H2 & H3); discriminate.
Qed.

(** X15.  The three searches of [getSearchContext] degrade one by one: if
    the search for the organic results fails, the web section still shows
    the featured snippet and the knowledge panel that the two later
    searches bring. *)
Theorem organic_failure_keeps_panels (query : string) (numResults : nat)
  (h : History) (error : Error) :
  google_search E h (JStr query) = inl error ->
  getSearchContext E (JStr query) numResults h
  = (inr (featured_block
            (featured_found E (JStr query)
               (h ++ [GoogleSearch (JStr query); GoogleSearch (JStr query)]))
          +++ knowledge_block
                (knowledge_found E (JStr query)
                   (h ++ [GoogleSearch (JStr query)]))),
     h ++ [GoogleSearch (JStr query); GoogleSearch (JStr query);
           GoogleSearch (JStr query)]).
Proof.
  intros Hfail. rewrite getSearchContext_eq.
  rewrite assemble_layout by apply organic_found_snippets.
  unfold web_layout, found, organic_found, web_calls, performSearch_calls.
  cbn [results knowledgeGraph featuredSnippet JsValue.interpolation_throws].
  rewrite Hfail. cbn [results_block].
  rewrite append_empty_r, <- !app_assoc. reflexivity.
Qed.

(** X16.  For a query that is a string, [quickSearch] never throws and
    calls the search engine once; it returns the empty string when the
    engine fails and when the engine has no result. *)
Theorem quickSearch_degrades (query : string) (numResults : nat)
  (h : History) :
  exists context,
    QuickSearch.quickSearch E (JStr query) numResults h
    = (inr context, h ++ [GoogleSearch (JStr query)])
    /\ (forall error,
          google_search E h (JStr query) = inl error ->
          context = EmptyString)
    /\ (forall response,
          google_search E h (JStr query) = inr response ->
          Google.results response = [] ->
          context = EmptyString).
Proof.
  unfold QuickSearch.quickSearch, bind, log_value, try_catch, call, ret.
  cbn [JsValue.interpolation_throws].
  destruct (google_search E h (JStr query)) as [e|response].
  - eexists. split; [reflexivity|]. split; [reflexivity | discriminate].
  - eexists. split; [reflexivity|]. split; [discriminate|].
    intros response' H Hnone. injection H as <-. rewrite Hnone.
    now rewrite firstn_nil.
Qed.

End WebEdges.

(** ** One turn of the question-and-answer session *)

Section Session.
Import JsString Augmenter.
Context {A : Type}.
Variable E : Env.
Variable retriever : Retriever.t.
Variable generateAnswer : string -> M A.

Lemma leave_test (answer : string) :
  String.eqb (toLowerCase (trim answer)) "exit"
  || String.eqb (toLowerCase (trim answer)) "quit" = true
  <-> asks_to_leave answer.
Proof.
  unfold asks_to_leave. now rewrite orb_true_iff, !String.eqb_eq.
Qed.

Lemma turn_returns (answer : string) (h : History) :
  exists control h',
    turn E retriever generateAnswer answer h = (inr control, h').
Proof.
  unfold turn, try_catch, ret.
  match goal with |- context [match ?body h with _ => _ end] =>
    destruct (body h) as [[e|c] h'] end; eauto.
Qed.

(** X17.  A turn of the session never throws, and it ends the session
    exactly when the typed line, trimmed and lowercased, is [exit] or
    [quit]; then, and also when the line is blank, no collaborator is
    called. *)
Theorem session_ends_on_exit_only (answer : string) (h : History) :
  (exists control h',
      turn E retriever generateAnswer answer h = (inr control, h'))
  /\ (fst (turn E retriever generateAnswer answer h) = inr Break
      <-> asks_to_leave answer)
  /\ (asks_to_leave answer ->
      turn E retriever generateAnswer answer h = (inr Break, h))
  /\ (trim answer = EmptyString ->
      turn E retriever generateAnswer answer h = (inr Continue, h)).
Proof.
  split; [apply turn_returns|].
  pose proof (leave_test answer) as Htest.
  unfold turn, try_catch.
  destruct (String.eqb (toLowerCase (trim answer)) "exit"
            || String.eqb (toLowerCase (trim answer)) "quit") eqn:Hleave.
  - unfold ret. simpl. repeat split; trivial.
    + intros _. now apply Htest.
    + intros Hblank. rewrite Hblank in Hleave. discriminate.
  - assert (Hstay : ~ asks_to_leave answer)
      by (intros H; apply Htest in H; discriminate).
    split; [|split].
    + split; [|contradiction].
      destruct (trim answer) as [|c q]; [discriminate|].
      unfold bind, ret.
      destruct (Retriever.retrieveContext E retriever (String c q) 30 h)
        as [[e|retrieved] h1]; [discriminate|].
      destruct (generateAnswer _ h1) as [[e|a] h2]; discriminate.
    + contradiction.
    + intros ->. reflexivity.
Qed.

(** X18.  A turn contains every failure: when the retrieval of the typed
    question throws, the session goes on and the generator is not called;
    when the generator throws, the session goes on as well. *)
Theorem session_contains_failures (answer : string) (h : History) :
  ~ asks_to_leave answer ->
  trim answer <> EmptyString ->
  (forall error h1,
      Retriever.retrieveContext E retriever (trim answer) 30 h
      = (inl error, h1) ->
      turn E retriever generateAnswer answer h = (inr Continue, h1))
  /\ (forall retrieved h1 outcome h2,
        Retriever.retrieveContext E retriever (trim answer) 30 h
        = (inr retrieved, h1) ->
        generateAnswer
          (augmentQueryWithContext (trim answer) (Retriever.context retrieved))
          h1 = (outcome, h2) ->
        turn E retriever generateAnswer answer h = (inr Continue, h2)).
Proof.
  intros Hstay Hquery.
  assert (Hleave : String.eqb (toLowerCase (trim answer)) "exit"
                   || String.eqb (toLowerCase (trim answer)) "quit" = false).
  { destruct (_ || _) eqn:H; [|reflexivity].
    apply leave_test in H. contradiction. }
  unfold turn, try_catch. rewrite Hleave.
  destruct (trim answer) as [|c q]; [contradiction|].
  split.
  - intros error h1 Hfail. unfold bind. now rewrite Hfail.
  - intros retrieved h1 outcome h2 Hok Hgen. unfold bind.
    rewrite Hok, Hgen. now destruct outcome.
Qed.

End Session.

(** ** The text splitter of the indexer *)

Section Chunking.
Import JsString Indexer.

Lemma blank_app (a b : string) : blank (a +++ b) = blank a && blank b.
Proof.
  induction a as [|c a IH]; simpl; [reflexivity|].
  now rewrite IH, andb_assoc.
Qed.

Lemma trim_solid (s : string) :
  blank s = false -> (0 <? String.length (trim s)) = true.
Proof.
  intros Hs. unfold trim.
  pose proof (trimStart_solid s) as Hsolid.
  assert (Hne : trimStart s <> EmptyString).
  { intros Hempty. clear Hsolid. induction s as [|c s IH]; [discriminate|].
    simpl in Hs, Hempty. destruct (is_space c); [|discriminate].
    now apply IH. }
  destruct (trimStart s) as [|c t]; [contradiction|].
  simpl in Hsolid. rewrite trimEnd_cons.
  destruct (trimEnd t); [now rewrite Hsolid | reflexivity].
Qed.

Lemma length_append (a b : string) :
  String.length (a +++ b) = String.length a + String.length b.
Proof. induction a as [|c a IH]; simpl; [reflexivity | now rewrite IH]. Qed.

Lemma snoc_not_nil (chunks : list string) (chunk : string) :
  chunks ++ [chunk] <> [].
Proof. intros H. apply app_eq_nil in H as [_ H]. discriminate. Qed.

Lemma split_sentences_cons (skipping : bool) (s : string) :
  exists piece pieces, split_sentences skipping s = piece :: pieces.
Proof.
  revert skipping. induction s as [|c s IH]; intros skipping; simpl.
  - eauto.
  - destruct (skipping && is_space c); [apply IH|].
    destruct (is_end c && next_is_space s); [eauto|].
    destruct (IH false) as (piece & pieces & ->). eauto.
Qed.

Lemma chunk_step_invariant (chunkSize overlap : nat)
  (state : list string * string) (sentence : string) :
  Forall (fun chunk => trim chunk = chunk) (fst state) ->
  chunking_invariant (chunk_step chunkSize overlap state sentence).
Proof.
  destruct state as [chunks currentChunk]. simpl. intros Htrimmed.
  unfold chunk_step, chunking_invariant.
  destruct ((chunkSize <? String.length (currentChunk +++ sentence))
            && (0 <? String.length currentChunk)); simpl.
  - split.
    + apply Forall_app. split; [exact Htrimmed|].
      constructor; [apply trim_idempotent | constructor].
    + left. apply snoc_not_nil.
  - split; [exact Htrimmed|]. right.
    rewrite !blank_app. simpl. now rewrite !andb_false_r.
Qed.

Lemma chunk_loop_invariant (chunkSize overlap : nat)
  (sentences : list string) (state : list string * string) :
  chunking_invariant state ->
  chunking_invariant (fold_left (chunk_step chunkSize overlap) sentences state).
Proof.
  revert state. induction sentences as [|sentence rest IH]; intros state H.
  - exact H.
  - simpl. apply IH. apply chunk_step_invariant, H.
Qed.

(** X19.  [chunkText] never returns an empty list, whatever the text and
    the sizes: even the empty text gives one chunk (a lone full stop).
    Every chunk it returns is trimmed. *)
Theorem chunkText_never_empty (text : string) (chunkSize overlap : nat) :
  chunkText text chunkSize overlap <> []
  /\ Forall (fun chunk => trim chunk = chunk)
       (chunkText text chunkSize overlap)
  /\ chunkText EmptyString chunkSize overlap = ["."].
Proof.
  split; [|split]; [| |reflexivity].
  all: unfold chunkText;
    destruct (split_sentences_cons false text) as (first & others & ->);
    cbn [fold_left];
    pose proof (chunk_loop_invariant chunkSize overlap others
                  (chunk_step chunkSize overlap ([], EmptyString) first)
                  (chunk_step_invariant chunkSize overlap ([], EmptyString)
                     first (Forall_nil _))) as Hinv;
    destruct (fold_left (chunk_step chunkSize overlap) others
                (chunk_step chunkSize overlap ([], EmptyString) first))
      as [chunks currentChunk];
    destruct Hinv as [Htrimmed Hsome]; simpl in Htrimmed, Hsome.
  - destruct Hsome as [Hchunks | Hsolid].
    + destruct (0 <? String.length (trim currentChunk));
        [apply snoc_not_nil | exact Hchunks].
    + rewrite (trim_solid currentChunk Hsolid). apply snoc_not_nil.
  - destruct (0 <? String.length (trim currentChunk)); [|exact Htrimmed].
    apply Forall_app. split; [exact Htrimmed|].
    constructor; [apply trim_idempotent | constructor].
Qed.

Lemma weight_split_skipping (skipping : bool) (s : string) :
  weight (split_sentences skipping s)
  + (if skipping && next_is_space s then 1 else 0)
  <= String.length s + 2.
Proof.
  revert skipping.
  induction s as [|c s IH]; intros skipping.
  - simpl. rewrite andb_false_r. lia.
  - cbn [split_sentences next_is_space String.length].
    destruct (skipping && is_space c) eqn:Hskip.
    + specialize (IH true). destruct (true && next_is_space s); lia.
    + destruct (is_end c && next_is_space s) eqn:Hend.
      * apply andb_true_iff in Hend as [_ Hnext].
        specialize (IH true). rewrite Hnext in IH. simpl in IH.
        simpl weight. lia.
      * specialize (IH false). simpl in IH.
        destruct (split_sentences false s); simpl in *; lia.
Qed.

Lemma weight_split (s : string) :
  weight (split_sentences false s) <= String.length s + 2.
Proof. pose proof (weight_split_skipping false s) as H. simpl in H. lia. Qed.

Lemma chunk_loop_fits (chunkSize overlap : nat) (sentences : list string)
  (chunks : list string) (currentChunk : string) :
  String.length currentChunk + weight sentences <= chunkSize + 2 ->
  fold_left (chunk_step chunkSize overlap) sentences (chunks, currentChunk)
  = (chunks, rejoin sentences currentChunk).
Proof.
  revert currentChunk.
  induction sentences as [|sentence rest IH]; intros currentChunk Hfits.
  - reflexivity.
  - simpl in Hfits. cbn [fold_left].
    assert (Hno : (chunkSize <? String.length (currentChunk +++ sentence))
                  = false).
    { apply Nat.ltb_ge. rewrite length_append. lia. }
    assert (Hstep : chunk_step chunkSize overlap (chunks, currentChunk) sentence
                    = (chunks, currentChunk +++ sentence +++ ". ")).
    { unfold chunk_step. now rewrite Hno. }
    rewrite Hstep.
    change (rejoin (sentence :: rest) currentChunk)
      with (rejoin rest (currentChunk +++ sentence +++ ". ")).
    apply IH. rewrite !length_append. simpl. lia.
Qed.

Lemma rejoin_solid (sentences : list string) (currentChunk : string) :
  blank currentChunk = false -> blank (rejoin sentences currentChunk) = false.
Proof.
  revert currentChunk.
  induction sentences as [|sentence rest IH]; intros currentChunk H.
  - exact H.
  - unfold rejoin. simpl. apply IH. now rewrite blank_app, H.
Qed.

(** X20.  A text that is no longer than [chunkSize] comes out as exactly
    one chunk: its sentences in order, each sentence mark together with
    the white space after it replaced by a full stop and a space, a full
    stop added after the last one, and the whole trimmed. *)
Theorem short_text_is_one_chunk (text : string) (chunkSize overlap : nat) :
  String.length text <= chunkSize ->
  chunkText text chunkSize overlap
  = [trim (rejoin (split_sentences false text) EmptyString)].
Proof.
  intros Hshort. unfold chunkText.
  pose proof (weight_split text) as Hweight.
  rewrite chunk_loop_fits by (simpl; lia).
  destruct (split_sentences_cons false text) as (first & others & Hsplit).
  rewrite Hsplit.
  assert (Hsolid : blank (rejoin (first :: others) EmptyString) = false).
  { unfold rejoin. simpl. apply rejoin_solid.
    rewrite blank_app. simpl. now rewrite !andb_false_r. }
  now rewrite (trim_solid _ Hsolid).
Qed.

End Chunking.

(** ** The rows and the embedded texts of the indexer *)

Section IndexedRows.
Import JsString Indexer.

Lemma trim_blank (s : string) : blank s = true -> trim s = EmptyString.
Proof. intros H. unfold trim. now rewrite (trimStart_blank s H). Qed.

Lemma meaningful_solid (s : string) :
  meaningful (Some s) = negb (blank s).
Proof.
  unfold meaningful, value, given. destruct (blank s) eqn:Hs.
  - rewrite (trim_blank s Hs). now destruct s.
  - rewrite (trim_solid s Hs). now destruct s.
Qed.

Lemma kept_text_solid (text : option string) :
  negb (given text) || (String.length (trim (value text)) =? 0) = false ->
  blank (value text) = false.
Proof.
  intros H. apply orb_false_iff in H. destruct H as [_ Hlen].
  destruct (blank (value text)) eqn:Hb; [|reflexivity].
  now rewrite (trim_blank _ Hb) in Hlen.
Qed.

Lemma described_text_solid (ocr vision page fallback : string)
  (chunk : Source.t) :
  blank ocr = false -> blank vision = false -> blank page = false ->
  blank fallback = false ->
  blank (joined_or (described_parts ocr vision page chunk) fallback) = false.
Proof.
  intros Hocr Hvision Hpage Hfallback.
  unfold joined_or, described_parts.
  destruct (given (Source.ocrText chunk));
    destruct (given (Source.visionDescription chunk));
    destruct (page_given (Source.pageNumber chunk));
    cbn [app List.length Nat.ltb Nat.leb join];
    rewrite ?append_assoc, ?blank_app, ?Hocr, ?Hvision, ?Hpage;
    trivial.
Qed.

Lemma row_text_solid (chunk : Source.t) : blank (row_text chunk) = false.
Proof.
  unfold row_text.
  destruct (negb (given (or_else (Source.text chunk)
                           (Source.combinedDescription chunk)))
            || (String.length
                  (trim (value (or_else (Source.text chunk)
                                  (Source.combinedDescription chunk)))) =? 0))
    eqn:Hfix.
  - apply described_text_solid; reflexivity.
  - now apply kept_text_solid.
Qed.

Lemma mapi_from_nth {X Y : Type} (f : X -> nat -> Y) (xs : list X)
  (start i : nat) :
  nth_error (mapi_from start f xs) i
  = option_map (fun x => f x (start + i)) (nth_error xs i).
Proof.
  revert start i. induction xs as [|x xs IH]; intros start i.
  - now destruct i.
  - destruct i as [|i]; simpl.
    + now rewrite Nat.add_0_r.
    + rewrite IH. simpl. now rewrite Nat.add_succ_r.
Qed.

Lemma mapi_from_length {X Y : Type} (f : X -> nat -> Y) (xs : list X)
  (start : nat) :
  List.length (mapi_from start f xs) = List.length xs.
Proof.
  revert start. induction xs as [|x xs IH]; intros start; simpl;
    [reflexivity | now rewrite IH].
Qed.

(** X21.  [storeInVectorDB] makes one row per chunk, in order; the row of
    the chunk at position [i] has [id] [i] and the [i]-th embedding as its
    vector (none when the embeddings are too few); and the row of a chunk
    object always carries a text that is more than white space, made up
    from the metadata when the chunk has none. *)
Theorem stored_rows_have_text (chunks : list Piece)
  (embeddings : list (list Q)) :
  List.length (store_data chunks embeddings) = List.length chunks
  /\ forall i piece,
       nth_error chunks i = Some piece ->
       exists row,
         nth_error (store_data chunks embeddings) i = Some row
         /\ StoredRow.id row = i
         /\ StoredRow.vector row = nth_error embeddings i
         /\ (forall chunk, piece = Described chunk ->
                           blank (StoredRow.text row) = false)
         /\ (forall chunk, piece = Plain chunk ->
                           StoredRow.text row = chunk /\ StoredRow.contentType row = "text").
Proof.
  unfold store_data, mapi. split; [apply mapi_from_length|].
  intros i piece Hpiece. rewrite mapi_from_nth, Hpiece. simpl.
  eexists. split; [reflexivity|].
  destruct piece as [chunk|chunk]; simpl.
  - split; [reflexivity|]. split; [reflexivity|]. split.
    + intros c Hc. discriminate.
    + intros c Hc. injection Hc as <-. now split.
  - split; [reflexivity|]. split; [reflexivity|]. split.
    + intros c _. apply row_text_solid.
    + intros c Hc. discriminate.
Qed.

Lemma embedding_text_solid (chunk : Source.t) :
  blank (embedding_text (Described chunk)) = false.
Proof.
  unfold embedding_text.
  match goal with
  | |- blank (if ?test then _ else _) = false => destruct test eqn:Hfix
  end.
  - reflexivity.
  - now apply kept_text_solid.
Qed.

Lemma valid_chunks_all (allChunks kept : list Piece) (texts : list string) :
  Forall (fun piece => blank (embedding_text piece) = false) allChunks ->
  fold_left
    (fun valid pair =>
       if meaningful (Some (snd pair))
       then (fst valid ++ [fst pair], snd valid ++ [snd pair])
       else valid)
    (List.combine allChunks (map embedding_text allChunks))
    (kept, texts)
  = (kept ++ allChunks, texts ++ map embedding_text allChunks).
Proof.
  intros Hall. revert kept texts.
  induction Hall as [|piece rest Hpiece _ IH]; intros kept texts; simpl.
  - now rewrite !app_nil_r.
  - rewrite meaningful_solid, Hpiece. simpl. rewrite IH.
    now rewrite <- !app_assoc.
Qed.

(** X22.  The text that [indexPDF] embeds for a chunk object is never
    blank, so its filter of empty chunks drops nothing when all chunks are
    objects (as [indexPDF] builds them): every chunk is embedded, and the
    embeddings line up with the chunks that are stored. *)
Theorem no_chunk_object_is_filtered (allChunks : list Piece) :
  (forall piece, In piece allChunks -> exists chunk, piece = Described chunk) ->
  Forall (fun text => blank text = false) (map embedding_text allChunks)
  /\ valid_chunks allChunks = (allChunks, map embedding_text allChunks).
Proof.
  intros Hobjects.
  assert (Hall : Forall (fun piece => blank (embedding_text piece) = false)
                   allChunks).
  { apply Forall_forall. intros piece Hin.
    destruct (Hobjects piece Hin) as [chunk ->]. apply embedding_text_solid. }
  split.
  - apply Forall_map. exact Hall.
  - unfold valid_chunks. now rewrite (valid_chunks_all allChunks [] [] Hall).
Qed.

End IndexedRows.

(** ** The further properties on the sample data *)

Section FurtherWitnesses.
Import JsString SampleRuns SampleMore.

Lemma fenced_completion_unwrapped_witness :
  QueryAnalyzer.json_text
    (fenced ("Here is my analysis:" +++ nl) nl "{ }" (nl +++ " ") " Done.")
  = trim "{ }"
  /\ QueryAnalyzer.json_text "{ }" = trim "{ }".
Proof.
  apply (fenced_completion_unwrapped ("Here is my analysis:" +++ nl) nl "{ }"
           (nl +++ " ") " Done."); reflexivity.
Defined.

Lemma chunk_without_text_skips_the_model_witness :
  QueryAnalyzer.evaluateRetrievalQuality online "hello"
    (Sample.rows ++ [bare_row]) []
  = (inr QueryAnalyzer.default_analysis, []).
Proof.
  apply (chunk_without_text_skips_the_model online "hello"
           (Sample.rows ++ [bare_row]) []).
  reflexivity.
Defined.

Lemma null_completion_is_a_failure_witness :
  QueryAnalyzer.evaluateRetrievalQuality answers_null "hello" local2 []
  = (inr QueryAnalyzer.default_analysis, [] ++ [analysis_call "hello" previews2]).
Proof.
  apply (null_completion_is_a_failure answers_null "hello" local2 [] previews2
           (Chat.mkResponse [Chat.mkChoice (Chat.mkMessage (Some "null"))])
           "null").
  - vm_compute. reflexivity.
  - reflexivity.
  - reflexivity.
  - vm_compute. reflexivity.
Defined.

Lemma parsed_verdict_is_returned_unchanged_witness :
  QueryAnalyzer.evaluateRetrievalQuality online "hello" local2 []
  = (inr empty_suggestion_verdict, [] ++ [analysis_call "hello" previews2]).
Proof.
  apply (parsed_verdict_is_returned_unchanged online "hello" local2 []
           previews2
           (Chat.mkResponse
              [Chat.mkChoice (Chat.mkMessage (Some Sample.empty_suggestion))])
           Sample.empty_suggestion empty_suggestion_verdict
           (Verdict.mk 8 true false "covered" (Some EmptyString))).
  - vm_compute. reflexivity.
  - reflexivity.
  - reflexivity.
  - vm_compute. reflexivity.
  - reflexivity.
Defined.

Lemma previews_show_200_units_witness :
  List.length previews2 = List.length local2
  /\ forall i chunk,
       nth_error local2 i = Some chunk ->
       exists t shown,
         text chunk = Some t
         /\ nth_error previews2 i
            = Some ("[Chunk " +++ of_nat (i + 1) +++ "]: " +++ shown +++ "...")
         /\ startsWith t shown = true
         /\ String.length shown = Nat.min 200 (String.length t).
Proof.
  apply (previews_show_200_units local2 previews2).
  vm_compute. reflexivity.
Defined.

Lemma nothing_retrieved_escalates_witness :
  web_requested (QueryAnalyzer.quickAnalysis "Summarize section 2" [bare_row] [])
  = Some true
  /\ suggested_by
       (QueryAnalyzer.quickAnalysis "Summarize section 2" [bare_row] [])
     = Some (JStr "Summarize section 2").
Proof.
  apply (nothing_retrieved_escalates "Summarize section 2" [bare_row] []).
  intros chunk [<- | []]. reflexivity.
Defined.

Lemma more_chunks_never_escalate_witness :
  web_requested
    (QueryAnalyzer.quickAnalysis "Summarize section 2"
       (Sample.rows ++ [bare_row]) [])
  = Some false.
Proof.
  apply (more_chunks_never_escalate "Summarize section 2" Sample.rows
           [bare_row] [] []).
  vm_compute. reflexivity.
Defined.

Lemma quick_analysis_run_witness :
  exists fused,
    Retriever.retrieveContext online quick_retriever "hello" 2 []
    = (inr fused,
       retrieved online
       ++ [GoogleSearch (JStr "hello"); GoogleSearch (JStr "hello");
           GoogleSearch (JStr "hello")])
    /\ option_map Retriever.searchQuery (Retriever.webResults fused)
       = Some (JStr "hello").
Proof.
  apply (quick_analysis_run online quick_retriever "hello" 2 []
           (retrieved online) local2).
  - reflexivity.
  - reflexivity.
  - vm_compute. reflexivity.
Defined.

Lemma llm_analysis_run_witness :
  exists fused previews searched,
    QueryAnalyzer.previews_from 0 local2 = Some previews
    /\ Retriever.retrieveContext online Sample.retriever "hello" 2 []
       = (inr fused,
          (retrieved online ++ [analysis_call "hello" previews])
          ++ web_calls searched)
    /\ option_map Retriever.searchQuery (Retriever.webResults fused)
       = Some searched.
Proof.
  apply (llm_analysis_run online Sample.retriever "hello" 2 []
           (retrieved online) local2).
  - reflexivity.
  - reflexivity.
  - vm_compute. reflexivity.
Defined.

Lemma organic_failure_keeps_panels_witness :
  WebSearcher.getSearchContext flaky (JStr "hello") 3 []
  = (inr (featured_block
            (featured_found flaky (JStr "hello")
               ([] ++ [GoogleSearch (JStr "hello"); GoogleSearch (JStr "hello")]))
          +++ knowledge_block
                (knowledge_found flaky (JStr "hello")
                   ([] ++ [GoogleSearch (JStr "hello")]))),
     [] ++ [GoogleSearch (JStr "hello"); GoogleSearch (JStr "hello");
            GoogleSearch (JStr "hello")]).
Proof.
  apply (organic_failure_keeps_panels flaky "hello" 3 [] Sample.offline).
  reflexivity.
Defined.

Lemma session_contains_failures_witness :
  (forall error h1,
      Retriever.retrieveContext online Sample.retriever (trim " hello ") 30 []
      = (inl error, h1) ->
      Augmenter.turn online Sample.retriever failing " hello " []
      = (inr Augmenter.Continue, h1))
  /\ (forall fetched h1 outcome h2,
        Retriever.retrieveContext online Sample.retriever (trim " hello ") 30 []
        = (inr fetched, h1) ->
        failing
          (Augmenter.augmentQueryWithContext (trim " hello ")
             (Retriever.context fetched)) h1 = (outcome, h2) ->
        Augmenter.turn online Sample.retriever failing " hello " []
        = (inr Augmenter.Continue, h2)).
Proof.
  apply (session_contains_failures online Sample.retriever failing " hello " []).
  - intros [H | H]; vm_compute in H; discriminate.
  - vm_compute. discriminate.
Defined.

Lemma short_text_is_one_chunk_witness :
  Indexer.chunkText "Hello world! How are you?  Fine." 500 50
  = [trim (rejoin (Indexer.split_sentences false
                     "Hello world! How are you?  Fine.") EmptyString)].
Proof.
  apply (short_text_is_one_chunk "Hello world! How are you?  Fine." 500 50).
  simpl. lia.
Defined.

Lemma no_chunk_object_is_filtered_witness :
  Forall (fun text => blank text = false)
    (map Indexer.embedding_text
       [Indexer.Described text_chunk; Indexer.Described empty_image])
  /\ Indexer.valid_chunks
       [Indexer.Described text_chunk; Indexer.Described empty_image]
     = ([Indexer.Described text_chunk; Indexer.Described empty_image],
        map Indexer.embedding_text
          [Indexer.Described text_chunk; Indexer.Described empty_image]).
Proof.
  apply (no_chunk_object_is_filtered
           [Indexer.Described text_chunk; Indexer.Described empty_image]).
  intros piece [<- | [<- | []]]; eexists; reflexivity.
Defined.

(** The sample session: a failing generator does not end it, the exit
    word does, in any letter case and with white space around it. *)
Example sample_turns :
  fst (Augmenter.turn online Sample.retriever failing "What is CRAG?" [])
  = inr Augmenter.Continue
  /\ Augmenter.turn online Sample.retriever failing "  EXIT " []
     = (inr Augmenter.Break, [])
  /\ Indexer.chunkText "A. b      ? ! xyz" 3 50 = ["A."; "A.  b"; EmptyString; "xyz"]
  /\ Indexer.embedding_text (Indexer.Described empty_image)
     = "From page 4".
Proof. vm_compute. repeat split. Qed.

End FurtherWitnesses.
